(** * chipper / phet-io: the API comparator [js/phet-io/compareAPIs.js]

    A shallow embedding of the comparator that detects breaking changes
    between two PhET-iO API descriptions, and the properties its design
    description states about it.

    The JavaScript function works on parsed JSON documents.  Values are
    modelled as a tree; an exception is an explicit result; the [problems]
    array that the function pushes to is threaded through the callbacks. *)

From Stdlib Require Import String Ascii List Bool PeanoNat PArith Lia.
From Stdlib Require Import DecimalString.
Import ListNotations.
Open Scope string_scope.
Open Scope list_scope.

(** ** Values

    The JavaScript values a parsed JSON document is made of, and [undefined]
    (what reading an absent property gives).

    - A number is given by the numeral that prints it: two numbers other
      than NaN are equal exactly when they print alike, and no parsed
      document holds NaN.
    - An array and a plain object carry the address that [===] compares.
      An object lists its own enumerable properties in the order
      [Object.keys] enumerates them; the keys of a real object are pairwise
      distinct, and a lookup in the model takes the first binding.
    - A character of a [string] stands for one code unit. *)

#[warnings="-register-all"]
Inductive value : Type :=
| VUndefined
| VNull
| VBool (b : bool)
| VNum (numeral : string)
| VStr (s : string)
| VArr (addr : positive) (items : list value)
| VObj (addr : positive) (fields : list (string * value)).

(** ** Exceptions *)

Inductive exn : Type := TypeError.

Inductive result (A : Type) : Type :=
| Ok (a : A)
| Throw (e : exn).

Arguments Ok {A} a.
Arguments Throw {A} e.

Definition bind {A B : Type} (c : result A) (k : A -> result B) : result B :=
  match c with
  | Ok a => k a
  | Throw e => Throw e
  end.

Notation "x <- c ;; k" := (bind c (fun x => k))
  (at level 61, c at next level, right associativity).

(** ** Primitive operations of the language *)

(** [a === b].  None of these values differs from itself (there is no NaN);
    two arrays or objects are equal when they are the same one. *)
Definition strict_eq (a b : value) : bool :=
  match a, b with
  | VUndefined, VUndefined => true
  | VNull, VNull => true
  | VBool x, VBool y => Bool.eqb x y
  | VNum x, VNum y => String.eqb x y
  | VStr x, VStr y => String.eqb x y
  | VArr r _, VArr r' _ => Pos.eqb r r'
  | VObj r _, VObj r' _ => Pos.eqb r r'
  | _, _ => false
  end.

(** [a !== b]. *)
Definition strict_neq (a b : value) : bool := negb (strict_eq a b).

Fixpoint lookup (k : string) (fields : list (string * value)) : option value :=
  match fields with
  | [] => None
  | (k', v) :: rest => if String.eqb k' k then Some v else lookup k rest
  end.

(** The property name of index [i]: its decimal numeral. *)
Definition index_key (i : nat) : string :=
  NilEmpty.string_of_uint (Nat.to_uint i).

Definition char_at (s : string) (i : nat) : value :=
  match String.get i s with
  | Some c => VStr (String c EmptyString)
  | None => VUndefined
  end.

(** The index that the property name [k] denotes, below [n]. *)
Definition index_of (k : string) (n : nat) : option nat :=
  find (fun i => String.eqb (index_key i) k) (seq 0 n).

(** [v[k]].  Reading a property of [undefined] or [null] throws.  Otherwise
    the own property is read, and [undefined] is the answer when there is
    none: no key the comparator reads that way ("phetioElements" and the
    metadata keys) is defined on a prototype, and every other key it reads
    was listed by [Object.keys] on the same value.  A string has its
    characters, an array its items, and both their [length], as own
    properties. *)
Definition getProp (v : value) (k : string) : result value :=
  match v with
  | VUndefined | VNull => Throw TypeError
  | VBool _ | VNum _ => Ok VUndefined
  | VStr s =>
      Ok (match index_of k (String.length s) with
          | Some i => char_at s i
          | None =>
              if String.eqb k "length" then VNum (index_key (String.length s))
              else VUndefined
          end)
  | VArr _ items =>
      Ok (match index_of k (List.length items) with
          | Some i => nth i items VUndefined
          | None =>
              if String.eqb k "length" then VNum (index_key (List.length items))
              else VUndefined
          end)
  | VObj _ fields =>
      Ok (match lookup k fields with
          | Some x => x
          | None => VUndefined
          end)
  end.

(** [Object.keys( v )]. *)
Definition object_keys (v : value) : result (list string) :=
  match v with
  | VUndefined | VNull => Throw TypeError
  | VBool _ | VNum _ => Ok []
  | VStr s => Ok (map index_key (seq 0 (String.length s)))
  | VArr _ items => Ok (map index_key (seq 0 (List.length items)))
  | VObj _ fields => Ok (map fst fields)
  end.

Definition hasOwn (k : string) (fields : list (string * value)) : bool :=
  match lookup k fields with
  | Some _ => true
  | None => false
  end.

(** The conversion a template literal applies to [${v}].  An array is
    printed by [Array.prototype.join], its items separated by commas, [null]
    and [undefined] items printing as nothing.  A plain object is printed by
    [Object.prototype.toString]; when it has an own property [toString]
    (never a function in a parsed document) the conversion finds nothing to
    call that returns a primitive, and throws.  Arrays of any depth are
    printed; an engine prints them as long as its stack lasts (see
    [noNestedArray]). *)
Fixpoint to_string (v : value) : result string :=
  match v with
  | VUndefined => Ok "undefined"
  | VNull => Ok "null"
  | VBool true => Ok "true"
  | VBool false => Ok "false"
  | VNum numeral => Ok numeral
  | VStr s => Ok s
  | VArr _ items =>
      (fix joined (l : list value) : result string :=
         match l with
         | [] => Ok EmptyString
         | x :: rest =>
             first <- match x with
                      | VUndefined | VNull => Ok EmptyString
                      | _ => to_string x
                      end ;;
             match rest with
             | [] => Ok first
             | _ => others <- joined rest ;; Ok (first ++ "," ++ others)%string
             end
         end) items
  | VObj _ fields =>
      if hasOwn "toString" fields then Throw TypeError else Ok "[object Object]"
  end.

(** [array.includes( e )] on an array of strings. *)
Definition includes (l : list string) (e : string) : bool :=
  existsb (String.eqb e) l.

(** [_.isEqual( a, b )] on two arrays of strings. *)
Fixpoint isEqual (a b : list string) : bool :=
  match a, b with
  | [], [] => true
  | x :: a', y :: b' => String.eqb x y && isEqual a' b'
  | _, _ => false
  end.

(** [array.join( sep )] on an array of strings. *)
Definition join (sep : string) (l : list string) : string := String.concat sep l.

(** The separator ["\n\t"]. *)
Definition nl_tab : string :=
  String (ascii_of_nat 10) (String (ascii_of_nat 9) EmptyString).

(** ** The comparator *)

Record Problem : Type := { message : string }.

Definition elementsOf (api : value) : result (list string) :=
  phetioElements <- getProp api "phetioElements" ;;
  object_keys phetioElements.

(** [api.phetioElements[ phetioID ][ metadataKey ]] *)
Definition metadataOf (api : value) (phetioID metadataKey : string) : result value :=
  phetioElements <- getProp api "phetioElements" ;;
  element <- getProp phetioElements phetioID ;;
  getProp element metadataKey.

Definition missingMessage (missingFrom2 : list string) : string :=
  ("Second API missing elements:" ++ nl_tab ++ join nl_tab missingFrom2)%string.

(** Lines 17-22: the problems pushed by the check of the identifier sets. *)
Definition missingElements (elements1 elements2 : list string) : list Problem :=
  if negb (isEqual elements1 elements2) then
    let missingFrom2 := filter (fun e => negb (includes elements2 e)) elements1 in
    if Nat.ltb 0 (List.length missingFrom2) then
      [ {| message := missingMessage missingFrom2 |} ]
    else []
  else [].

Definition changedMessage (phetioID metadataKey : string) (oldValue newValue : value)
  : result string :=
  o <- to_string oldValue ;;
  n <- to_string newValue ;;
  Ok (phetioID ++ "." ++ metadataKey ++ " changed from " ++ o ++ " to " ++ n)%string.

(** Lines 26-44.  [invalidNewValue] is [VUndefined] when the caller leaves
    the second argument out. *)
Definition reportDifferences (api1 api2 : value) (phetioID : string)
    (metadataKey : string) (invalidNewValue : value) (problems : list Problem)
  : result (list Problem) :=
  oldValue <- metadataOf api1 phetioID metadataKey ;;
  newValue <- metadataOf api2 phetioID metadataKey ;;
  if strict_neq oldValue newValue then
    if strict_eq invalidNewValue VUndefined then
      m <- changedMessage phetioID metadataKey oldValue newValue ;;
      Ok (problems ++ [ {| message := m |} ])
    else
      if strict_eq newValue invalidNewValue then
        m <- changedMessage phetioID metadataKey oldValue newValue ;;
        Ok (problems ++ [ {| message := m |} ])
      else
        Ok problems
  else Ok problems.

(** Lines 23-61: the callback of [elements1.forEach]. *)
Definition checkElement (api1 api2 : value) (elements2 : list string)
    (problems : list Problem) (phetioID : string) : result (list Problem) :=
  if includes elements2 phetioID then
    p <- reportDifferences api1 api2 phetioID "phetioTypeName" VUndefined problems ;;
    p <- reportDifferences api1 api2 phetioID "phetioEventType" VUndefined p ;;
    p <- reportDifferences api1 api2 phetioID "phetioPlayback" VUndefined p ;;
    p <- reportDifferences api1 api2 phetioID "phetioDynamicElement" VUndefined p ;;
    p <- reportDifferences api1 api2 phetioID "phetioIsArchetype" VUndefined p ;;
    p <- reportDifferences api1 api2 phetioID "phetioArchetypePhetioID" VUndefined p ;;
    p <- reportDifferences api1 api2 phetioID "phetioState" (VBool false) p ;;
    reportDifferences api1 api2 phetioID "phetioReadOnly" (VBool true) p
  else Ok problems.

(** [array.forEach( callback )], the callback updating a state and possibly
    throwing. *)
Fixpoint forEach {S : Type} (callback : S -> string -> result S)
    (l : list string) (s : S) : result S :=
  match l with
  | [] => Ok s
  | x :: rest => s' <- callback s x ;; forEach callback rest s'
  end.

(** The exported function. *)
Definition compareAPIs (api1 api2 : value) : result (list Problem) :=
  elements1 <- elementsOf api1 ;;
  elements2 <- elementsOf api2 ;;
  let problems := missingElements elements1 elements2 in
  forEach (checkElement api1 api2 elements2) elements1 problems.

(** ** Well-formed descriptions

    The data model of the design description: an API description holds,
    under [phetioElements], a mapping from identifiers to metadata records,
    and every attribute of a record is a primitive value. *)

Definition isPrimitive (v : value) : bool :=
  match v with
  | VArr _ _ | VObj _ _ => false
  | _ => true
  end.

Definition isRecord (v : value) : bool :=
  match v with
  | VObj _ attributes => forallb (fun kv => isPrimitive (snd kv)) attributes
  | _ => false
  end.

Definition isMapping (v : value) : bool :=
  match v with
  | VObj _ elements => forallb (fun kv => isRecord (snd kv)) elements
  | _ => false
  end.

Definition wellFormed (api : value) : bool :=
  match getProp api "phetioElements" with
  | Ok phetioElements => isMapping phetioElements
  | Throw _ => false
  end.

(** The mapping is absent: reading [api.phetioElements] gives [undefined]
    or [null], or fails already. *)
Definition mappingAbsent (api : value) : bool :=
  match getProp api "phetioElements" with
  | Ok VUndefined | Ok VNull => true
  | Ok _ => false
  | Throw _ => true
  end.

(** ** The comparison as the design description words it *)

(** The recognized attributes in their declaration order, each with the
    value it must not move to when the check is directional. *)
Definition recognizedAttributes : list (string * option value) :=
  [ ("phetioTypeName", None);
    ("phetioEventType", None);
    ("phetioPlayback", None);
    ("phetioDynamicElement", None);
    ("phetioIsArchetype", None);
    ("phetioArchetypePhetioID", None);
    ("phetioState", Some (VBool false));
    ("phetioReadOnly", Some (VBool true)) ].

Definition recognizedKeys : list string := map fst recognizedAttributes.

Definition nonDirectionalAttributes : list string :=
  [ "phetioTypeName"; "phetioEventType"; "phetioPlayback";
    "phetioDynamicElement"; "phetioIsArchetype"; "phetioArchetypePhetioID" ].

Definition directionalAttributes : list (string * value) :=
  [ ("phetioState", VBool false); ("phetioReadOnly", VBool true) ].

Definition excludedAttributes : list string :=
  [ "phetioFeatured"; "phetioStudioControl"; "phetioHighFrequency" ].

(** The identifiers of the first description that the second lacks. *)
Definition removedElements (elements1 elements2 : list string) : list string :=
  filter (fun e => negb (includes elements2 e)) elements1.

(** The identifiers of the first description that the second has too. *)
Definition sharedElements (elements1 elements2 : list string) : list string :=
  filter (includes elements2) elements1.

Definition keysOrEmpty (api : value) : list string :=
  match elementsOf api with
  | Ok l => l
  | Throw _ => []
  end.

Definition attributeOf (api : value) (phetioID metadataKey : string) : value :=
  match metadataOf api phetioID metadataKey with
  | Ok v => v
  | Throw _ => VUndefined
  end.

Definition printed (v : value) : string :=
  match to_string v with
  | Ok s => s
  | Throw _ => EmptyString
  end.

Definition changeProblem (phetioID metadataKey : string) (o n : value) : Problem :=
  {| message := (phetioID ++ "." ++ metadataKey ++ " changed from "
                 ++ printed o ++ " to " ++ printed n)%string |}.

(** Any change is reported when there is no unsafe value; otherwise only a
    change that arrives at the unsafe value. *)
Definition reportable (unsafe : option value) (o n : value) : bool :=
  match unsafe with
  | None => strict_neq o n
  | Some u => strict_neq o n && strict_eq n u
  end.

(** The second argument that lines 47-54 pass for a row of the table. *)
Definition invalidNewValueOf (unsafe : option value) : value :=
  match unsafe with
  | None => VUndefined
  | Some u => u
  end.

(** An unsafe value is a value, not [undefined]. *)
Definition properUnsafe (unsafe : option value) : Prop :=
  match unsafe with
  | None => True
  | Some u => strict_eq u VUndefined = false
  end.

Definition attributeProblems (oldAPI newAPI : value) (phetioID : string)
    (row : string * option value) : list Problem :=
  let o := attributeOf oldAPI phetioID (fst row) in
  let n := attributeOf newAPI phetioID (fst row) in
  if reportable (snd row) o n then [ changeProblem phetioID (fst row) o n ] else [].

Definition missingProblems (elements1 elements2 : list string) : list Problem :=
  match removedElements elements1 elements2 with
  | [] => []
  | removed => [ {| message := missingMessage removed |} ]
  end.

(** Missing-elements problem first, then one identifier of the first
    description after the other, and for each the recognized attributes in
    declaration order. *)
Definition expectedProblems (oldAPI newAPI : value) : list Problem :=
  let elements1 := keysOrEmpty oldAPI in
  let elements2 := keysOrEmpty newAPI in
  missingProblems elements1 elements2
  ++ flat_map (fun phetioID =>
                 flat_map (attributeProblems oldAPI newAPI phetioID) recognizedAttributes)
       (sharedElements elements1 elements2).

(** The comparator without the guard of line 17. *)
Definition missingElementsUnguarded (elements1 elements2 : list string) : list Problem :=
  let missingFrom2 := filter (fun e => negb (includes elements2 e)) elements1 in
  if Nat.ltb 0 (List.length missingFrom2) then
    [ {| message := missingMessage missingFrom2 |} ]
  else [].

Definition compareAPIsUnguarded (api1 api2 : value) : result (list Problem) :=
  elements1 <- elementsOf api1 ;;
  elements2 <- elementsOf api2 ;;
  let problems := missingElementsUnguarded elements1 elements2 in
  forEach (checkElement api1 api2 elements2) elements1 problems.

(** [fields[k] = v] on the properties of an object: an existing property
    keeps its place, a new one comes last. *)
Fixpoint setField (k : string) (v : value) (fields : list (string * value))
  : list (string * value) :=
  match fields with
  | [] => [ (k, v) ]
  | (k', v') :: rest =>
      if String.eqb k' k then (k', v) :: rest else (k', v') :: setField k v rest
  end.

(** The description [api] with [api.phetioElements[ phetioID ][ metadataKey ]]
    set to [v]; [api] itself where there is no such record. *)
Definition withAttribute (phetioID metadataKey : string) (v : value) (api : value)
  : value :=
  match api with
  | VObj a top =>
      match lookup "phetioElements" top with
      | Some (VObj b elements) =>
          match lookup phetioID elements with
          | Some (VObj c attributes) =>
              VObj a (setField "phetioElements"
                        (VObj b (setField phetioID
                                   (VObj c (setField metadataKey v attributes))
                                   elements))
                        top)
          | _ => api
          end
      | _ => api
      end
  | _ => api
  end.

(** ** Sample descriptions *)

Definition sampleOld : value :=
  VObj 1 [ ("phetioElements",
            VObj 2 [ ("sim.x", VObj 3 [ ("phetioTypeName", VStr "T1");
                                        ("phetioState", VBool true);
                                        ("phetioFeatured", VBool true) ]);
                     ("sim.y", VObj 4 [ ("phetioReadOnly", VBool false) ]);
                     ("sim.z", VObj 5 [ ]) ]);
           ("phetioTypes", VObj 6 [ ]) ].

Definition sampleNew : value :=
  VObj 11 [ ("phetioElements",
             VObj 12 [ ("sim.w", VObj 13 [ ("phetioTypeName", VStr "W") ]);
                       ("sim.x", VObj 14 [ ("phetioTypeName", VStr "T2");
                                           ("phetioState", VBool false);
                                           ("phetioFeatured", VBool false) ]) ]) ].

(** [sampleNew] without the identifier that [sampleOld] does not have. *)
Definition sampleNewTrimmed : value :=
  VObj 21 [ ("phetioElements",
             VObj 22 [ ("sim.x", VObj 23 [ ("phetioTypeName", VStr "T2");
                                           ("phetioState", VBool false);
                                           ("phetioFeatured", VBool false) ]) ]) ].

(** The identifiers of [sampleOld], enumerated in another order. *)
Definition sampleReordered : value :=
  VObj 31 [ ("phetioElements",
             VObj 32 [ ("sim.z", VObj 33 [ ]);
                       ("sim.x", VObj 34 [ ("phetioTypeName", VStr "T1");
                                           ("phetioState", VBool true) ]);
                       ("sim.y", VObj 35 [ ("phetioReadOnly", VBool true) ]) ]) ].

(** Another document around the very mapping of [sampleOld]. *)
Definition sampleOldRewrapped : value :=
  VObj 41 [ ("phetioTypes",
             VObj 42 [ ("ObjectIO", VObj 43 [ ("methodOrder", VArr 44 [ ]);
                                              ("supertype", VNull) ]) ]);
            ("phetioElements",
             VObj 2 [ ("sim.x", VObj 3 [ ("phetioTypeName", VStr "T1");
                                         ("phetioState", VBool true);
                                         ("phetioFeatured", VBool true) ]);
                      ("sim.y", VObj 4 [ ("phetioReadOnly", VBool false) ]);
                      ("sim.z", VObj 5 [ ]) ]);
            ("version", VObj 45 [ ("major", VNum "1"); ("minor", VNum "0") ]) ].

(** A document without the mapping, and two whose mapping is malformed. *)
Definition noMapping : value := VObj 51 [ ("phetioTypes", VObj 52 [ ]) ].

Definition booleanMapping : value := VObj 61 [ ("phetioElements", VBool true) ].

Definition nullRecord : value :=
  VObj 71 [ ("phetioElements", VObj 72 [ ("sim.x", VNull) ]) ].

Definition emptyMapping : value := VObj 81 [ ("phetioElements", VObj 82 [ ]) ].

(** Two descriptions that differ in several attributes of several shared
    identifiers. *)
Definition orderOld : value :=
  VObj 91 [ ("phetioElements",
             VObj 92 [ ("sim.b", VObj 93 [ ("phetioReadOnly", VBool false);
                                           ("phetioTypeName", VStr "T") ]);
                       ("sim.a", VObj 94 [ ("phetioState", VBool true);
                                           ("phetioEventType", VStr "E") ]);
                       ("sim.c", VObj 95 [ ]) ]) ].

Definition orderNew : value :=
  VObj 101 [ ("phetioElements",
              VObj 102 [ ("sim.a", VObj 103 [ ("phetioEventType", VStr "F");
                                              ("phetioState", VBool false) ]);
                         ("sim.b", VObj 104 [ ("phetioTypeName", VStr "U");
                                              ("phetioReadOnly", VBool true) ]) ]) ].

(** A description of the single identifier [sim.x]. *)
Definition oneRecord (a : positive) (attributes : list (string * value)) : value :=
  VObj a [ ("phetioElements", VObj (a + 1) [ ("sim.x", VObj (a + 2) attributes) ]) ].

(** ** Notions for the further properties *)

(** Lines 47-54 as one loop over the rows of a table: the calls of
    [reportDifferences] one after the other, each on the problems the
    previous one left. *)
Fixpoint reportAll (api1 api2 : value) (phetioID : string)
    (rows : list (string * option value)) (problems : list Problem)
  : result (list Problem) :=
  match rows with
  | [] => Ok problems
  | row :: rest =>
      p <- reportDifferences api1 api2 phetioID (fst row)
             (invalidNewValueOf (snd row)) problems ;;
      reportAll api1 api2 phetioID rest p
  end.

(** [api.phetioElements[ phetioID ]] *)
Definition recordOf (api : value) (phetioID : string) : result value :=
  phetioElements <- getProp api "phetioElements" ;;
  getProp phetioElements phetioID.

Definition nullish (v : value) : bool :=
  match v with
  | VUndefined | VNull => true
  | _ => false
  end.

(** No property of the record of [phetioID] can be read. *)
Definition recordMissing (api : value) (phetioID : string) : bool :=
  match recordOf api phetioID with
  | Ok r => nullish r
  | Throw _ => true
  end.

(** The template literal can print the value. *)
Definition printable (v : value) : bool :=
  match to_string v with
  | Ok _ => true
  | Throw _ => false
  end.

(** The two descriptions are compatible at a shared identifier: no
    recognized attribute changed in a way that is reported. *)
Definition unchangedAt (oldAPI newAPI : value) (phetioID : string) : Prop :=
  (forall k, In k nonDirectionalAttributes ->
     strict_eq (attributeOf oldAPI phetioID k) (attributeOf newAPI phetioID k) = true)
  /\ (forall k unsafe, In (k, unsafe) directionalAttributes ->
        strict_eq (attributeOf oldAPI phetioID k) (attributeOf newAPI phetioID k) = true
        \/ strict_eq (attributeOf newAPI phetioID k) unsafe = false).

(** Two descriptions outside the data model: an attribute holds an array,
    alike in both but not the same array, and a record that only the first
    description has is [null]. *)
Definition arrayOld : value :=
  VObj 111 [ ("phetioElements",
              VObj 112 [ ("sim.x", VObj 113 [ ("phetioTypeName",
                                               VArr 114 [ VNum "1"; VNum "2" ]) ]);
                         ("sim.n", VNull) ]) ].

Definition arrayNew : value :=
  VObj 121 [ ("phetioElements",
              VObj 122 [ ("sim.x", VObj 123 [ ("phetioTypeName",
                                               VArr 124 [ VNum "1"; VNum "2" ]) ]) ]) ].

(** [sampleOld] and [sampleNew] rewritten: other objects, the attributes of
    the shared record in another order and with unrecognized ones, and no
    record to read at the identifiers that are not shared. *)
Definition rewrittenOld : value :=
  VObj 131 [ ("phetioElements",
              VObj 132 [ ("sim.x", VObj 133 [ ("phetioDocumentation", VStr "old text");
                                              ("phetioState", VBool true);
                                              ("phetioTypeName", VStr "T1") ]);
                         ("sim.y", VNull);
                         ("sim.z", VStr "no record") ]) ].

Definition rewrittenNew : value :=
  VObj 141 [ ("phetioElements",
              VObj 142 [ ("sim.w", VNull);
                         ("sim.x", VObj 143 [ ("phetioState", VBool false);
                                              ("phetioHighFrequency", VBool true);
                                              ("phetioTypeName", VStr "T2") ]) ]) ].

(** Two descriptions in which the directional attributes move in every
    direction: to the unsafe value, away from it, and from [undefined]. *)
Definition directionOld : value :=
  VObj 151 [ ("phetioElements",
              VObj 152 [ ("sim.x", VObj 153 [ ("phetioState", VBool true);
                                              ("phetioReadOnly", VBool false) ]);
                         ("sim.y", VObj 154 [ ("phetioState", VBool false);
                                              ("phetioReadOnly", VBool true) ]);
                         ("sim.z", VObj 155 [ ]);
                         ("sim.u", VObj 156 [ ]) ]) ].

Definition directionNew : value :=
  VObj 161 [ ("phetioElements",
              VObj 162 [ ("sim.x", VObj 163 [ ("phetioState", VBool false);
                                              ("phetioReadOnly", VBool true) ]);
                         ("sim.y", VObj 164 [ ("phetioState", VBool true);
                                              ("phetioReadOnly", VBool false) ]);
                         ("sim.z", VObj 165 [ ("phetioState", VBool false);
                                              ("phetioReadOnly", VBool true) ]);
                         ("sim.u", VObj 166 [ ("phetioState", VBool true);
                                              ("phetioReadOnly", VBool false) ]) ]) ].

(** The value is not an array that holds an array.  [Array.prototype.join]
    calls itself on the arrays inside an array, once for each level, and an
    engine gives up with a RangeError when the levels exhaust its stack;
    [to_string] prints arrays of any depth.  On a value of this kind the
    conversion does not nest. *)
Definition noNestedArray (v : value) : bool :=
  match v with
  | VArr _ items =>
      forallb (fun x => match x with VArr _ _ => false | _ => true end) items
  | _ => true
  end.

(** A record whose type name cannot be printed, and one to compare it with. *)
Definition unprintableOld : value :=
  oneRecord 171 [ ("phetioTypeName", VObj 179 [ ("toString", VNum "1") ]) ].

Definition printableNew : value :=
  oneRecord 181 [ ("phetioTypeName", VStr "T") ].

(** * Properties *)

(** ** The primitive operations *)

Lemma strict_eq_refl (v : value) : strict_eq v v = true.
Proof.
  destruct v as [ | | b | x | s | r l | r f ]; simpl; trivial.
  - now destruct b.
  - apply String.eqb_refl.
  - apply String.eqb_refl.
  - apply Pos.eqb_refl.
  - apply Pos.eqb_refl.
Qed.

Lemma includes_In (l : list string) (e : string) :
  includes l e = true <-> In e l.
Proof.
  unfold includes. rewrite existsb_exists. split.
  - intros [x [Hin Heq]]. apply String.eqb_eq in Heq. now subst.
  - intro Hin. exists e. split; [ assumption | apply String.eqb_refl ].
Qed.

Lemma includes_false (l : list string) (e : string) :
  includes l e = false <-> ~ In e l.
Proof.
  rewrite <- includes_In. destruct (includes l e); split; intro H;
    try discriminate; try reflexivity. now elim H.
Qed.

Lemma isEqual_eq (a b : list string) : isEqual a b = true <-> a = b.
Proof.
  revert b. induction a as [ | x a IH ]; intros [ | y b ]; simpl;
    try (split; intro H; (reflexivity || discriminate)).
  rewrite andb_true_iff, String.eqb_eq, IH. split.
  - intros [-> ->]. reflexivity.
  - intro H. injection H as -> ->. now split.
Qed.

Lemma removed_self (l : list string) : removedElements l l = [].
Proof.
  unfold removedElements.
  assert (H : forall m, (forall e, In e m -> In e l) ->
                        filter (fun e => negb (includes l e)) m = []).
  { induction m as [ | x m IH ]; intro Hsub; simpl; [ reflexivity | ].
    assert (Hx : includes l x = true) by (apply includes_In, Hsub; now left).
    rewrite Hx. simpl. apply IH. intros e He. apply Hsub. now right. }
  apply H. trivial.
Qed.

Lemma removed_nil_iff (l1 l2 : list string) :
  removedElements l1 l2 = [] <-> (forall e, In e l1 -> In e l2).
Proof.
  unfold removedElements. induction l1 as [ | x l1 IH ]; simpl.
  - split; [ intros _ e [] | reflexivity ].
  - destruct (includes l2 x) eqn:Hx; simpl.
    + rewrite IH. apply includes_In in Hx. split.
      * intros H e [<- | He]; auto.
      * intros H e He. apply H. now right.
    + split; [ discriminate | ]. intro H.
      apply includes_false in Hx. elim Hx. apply H. now left.
Qed.

Lemma removed_In (l1 l2 : list string) (e : string) :
  In e (removedElements l1 l2) <-> In e l1 /\ ~ In e l2.
Proof.
  unfold removedElements. rewrite filter_In, negb_true_iff, includes_false.
  reflexivity.
Qed.

Lemma shared_In (l1 l2 : list string) (e : string) :
  In e (sharedElements l1 l2) <-> In e l1 /\ In e l2.
Proof.
  unfold sharedElements. rewrite filter_In, includes_In. reflexivity.
Qed.

(** ** The check of the identifier sets *)

Lemma missingUnguarded_spec (l1 l2 : list string) :
  missingElementsUnguarded l1 l2 = missingProblems l1 l2.
Proof.
  unfold missingElementsUnguarded, missingProblems, removedElements.
  destruct (filter _ l1); reflexivity.
Qed.

Lemma missingElements_unguarded (l1 l2 : list string) :
  missingElements l1 l2 = missingElementsUnguarded l1 l2.
Proof.
  unfold missingElements. destruct (isEqual l1 l2) eqn:Heq; simpl.
  - apply isEqual_eq in Heq. subst l2.
    rewrite missingUnguarded_spec. unfold missingProblems.
    now rewrite removed_self.
  - reflexivity.
Qed.

Lemma missingElements_spec (l1 l2 : list string) :
  missingElements l1 l2 = missingProblems l1 l2.
Proof.
  rewrite missingElements_unguarded. apply missingUnguarded_spec.
Qed.

(** ** Reading a well-formed description *)

Lemma lookup_In (k : string) (fields : list (string * value)) (v : value) :
  lookup k fields = Some v -> In (k, v) fields.
Proof.
  induction fields as [ | [k' v'] rest IH ]; simpl; [ discriminate | ].
  destruct (String.eqb k' k) eqn:Hk.
  - apply String.eqb_eq in Hk. intro H. injection H as ->. subst. now left.
  - intro H. right. now apply IH.
Qed.

Lemma lookup_keys (k : string) (fields : list (string * value)) :
  In k (map fst fields) -> exists v, lookup k fields = Some v.
Proof.
  induction fields as [ | [k' v'] rest IH ]; simpl; [ intros [] | ].
  destruct (String.eqb k' k) eqn:Hk; [ eauto | ].
  intros [ -> | Hin ]; [ | now apply IH ].
  now rewrite String.eqb_refl in Hk.
Qed.

Lemma wellFormed_inv (api : value) :
  wellFormed api = true ->
  exists b elements,
    getProp api "phetioElements" = Ok (VObj b elements)
    /\ forallb (fun kv => isRecord (snd kv)) elements = true.
Proof.
  unfold wellFormed.
  destruct (getProp api "phetioElements") as [ [ | | ? | ? | ? | ? ? | b elements ] | ];
    simpl; try discriminate.
  intro H. now exists b, elements.
Qed.

Lemma wellFormed_keys (api : value) :
  wellFormed api = true -> elementsOf api = Ok (keysOrEmpty api).
Proof.
  intro Hwf. destruct (wellFormed_inv api Hwf) as (b & els & Hget & _).
  unfold keysOrEmpty, elementsOf. rewrite Hget. reflexivity.
Qed.

Lemma record_attribute (e : value) (k : string) :
  isRecord e = true -> exists v, getProp e k = Ok v /\ isPrimitive v = true.
Proof.
  destruct e as [ | | ? | ? | ? | ? ? | c attrs ]; simpl; try discriminate.
  intro Hall. destruct (lookup k attrs) as [ v | ] eqn:Hk.
  - exists v. split; [ reflexivity | ].
    apply lookup_In in Hk. rewrite forallb_forall in Hall.
    exact (Hall (k, v) Hk).
  - now exists VUndefined.
Qed.

Lemma wellFormed_metadata (api : value) (phetioID metadataKey : string) :
  wellFormed api = true -> In phetioID (keysOrEmpty api) ->
  exists v, metadataOf api phetioID metadataKey = Ok v /\ isPrimitive v = true.
Proof.
  intros Hwf Hin. destruct (wellFormed_inv api Hwf) as (b & els & Hget & Hall).
  unfold keysOrEmpty, elementsOf in Hin. rewrite Hget in Hin. simpl in Hin.
  destruct (lookup_keys _ _ Hin) as [e He].
  unfold metadataOf. rewrite Hget. simpl. rewrite He.
  apply record_attribute. rewrite forallb_forall in Hall.
  exact (Hall (phetioID, e) (lookup_In _ _ _ He)).
Qed.

Lemma primitive_printed (v : value) :
  isPrimitive v = true -> to_string v = Ok (printed v).
Proof.
  unfold printed. destruct v as [ | | [ | ] | ? | ? | ? ? | ? ? ]; simpl;
    (reflexivity || discriminate).
Qed.

(** ** One attribute check *)

Lemma reportDifferences_eval (api1 api2 : value) (phetioID metadataKey : string)
    (unsafe : option value) (problems : list Problem) (o n : value) (so sn : string) :
  properUnsafe unsafe ->
  metadataOf api1 phetioID metadataKey = Ok o ->
  metadataOf api2 phetioID metadataKey = Ok n ->
  to_string o = Ok so -> to_string n = Ok sn ->
  reportDifferences api1 api2 phetioID metadataKey (invalidNewValueOf unsafe) problems
  = Ok (problems ++ if reportable unsafe o n
                    then [ changeProblem phetioID metadataKey o n ] else []).
Proof.
  intros Hu Ho Hn Hso Hsn. unfold reportDifferences. rewrite Ho, Hn. simpl.
  unfold changedMessage, changeProblem, printed. rewrite Hso, Hsn.
  destruct unsafe as [ u | ]; simpl in *.
  - rewrite Hu. destruct (strict_neq o n); simpl.
    + destruct (strict_eq n u); simpl; [ reflexivity | now rewrite app_nil_r ].
    + now rewrite app_nil_r.
  - destruct (strict_neq o n); simpl; [ reflexivity | now rewrite app_nil_r ].
Qed.

Lemma flat_map_shared {A : Type} (f : string -> list A) (l l2 : list string) :
  flat_map (fun e => if includes l2 e then f e else []) l
  = flat_map f (sharedElements l l2).
Proof.
  unfold sharedElements. induction l as [ | x l IH ]; simpl; [ reflexivity | ].
  destruct (includes l2 x); simpl; now rewrite IH.
Qed.

(** ** Two well-formed descriptions *)

Section WellFormedPair.

Variables oldAPI newAPI : value.
Hypothesis old_well_formed : wellFormed oldAPI = true.
Hypothesis new_well_formed : wellFormed newAPI = true.

Let elements1 := keysOrEmpty oldAPI.
Let elements2 := keysOrEmpty newAPI.

Lemma reportDifferences_wf (phetioID : string) (row : string * option value)
    (problems : list Problem) :
  In phetioID elements1 -> In phetioID elements2 ->
  properUnsafe (snd row) ->
  reportDifferences oldAPI newAPI phetioID (fst row) (invalidNewValueOf (snd row))
    problems
  = Ok (problems ++ attributeProblems oldAPI newAPI phetioID row).
Proof.
  intros Hi1 Hi2 Hu. destruct row as [k unsafe]. simpl in *.
  destruct (wellFormed_metadata oldAPI phetioID k old_well_formed Hi1)
    as (o & Ho & Hpo).
  destruct (wellFormed_metadata newAPI phetioID k new_well_formed Hi2)
    as (n & Hn & Hpn).
  rewrite (reportDifferences_eval _ _ _ _ unsafe problems o n _ _ Hu Ho Hn
             (primitive_printed o Hpo) (primitive_printed n Hpn)).
  unfold attributeProblems, attributeOf. simpl. now rewrite Ho, Hn.
Qed.

(** The eight calls of lines 47-54, one after the other. *)
Lemma checkElement_wf (problems : list Problem) (phetioID : string) :
  In phetioID elements1 ->
  checkElement oldAPI newAPI elements2 problems phetioID
  = Ok (problems ++
        if includes elements2 phetioID
        then flat_map (attributeProblems oldAPI newAPI phetioID) recognizedAttributes
        else []).
Proof.
  intros Hi1. unfold checkElement.
  destruct (includes elements2 phetioID) eqn:Hinc; [ | now rewrite app_nil_r ].
  apply includes_In in Hinc.
  unfold recognizedAttributes. cbn [flat_map].
  repeat
    match goal with
    | |- context [ reportDifferences _ _ _ ?k ?u ?p ] =>
        let row := constr:((k, match u with VUndefined => None | _ => Some u end)) in
        let R := fresh "R" in
        pose proof (reportDifferences_wf phetioID row p Hi1 Hinc) as R;
        cbn [fst snd invalidNewValueOf properUnsafe] in R;
        rewrite (R ltac:(first [ exact I | reflexivity ])); clear R;
        cbn [bind]
    end.
  repeat rewrite <- app_assoc. rewrite app_nil_r. reflexivity.
Qed.

Lemma forEach_wf (l : list string) (problems : list Problem) :
  (forall e, In e l -> In e elements1) ->
  forEach (checkElement oldAPI newAPI elements2) l problems
  = Ok (problems ++
        flat_map (fun phetioID =>
                    flat_map (attributeProblems oldAPI newAPI phetioID)
                      recognizedAttributes)
          (sharedElements l elements2)).
Proof.
  rewrite <- flat_map_shared. revert problems.
  induction l as [ | x l IH ]; intros problems Hsub; simpl.
  - now rewrite app_nil_r.
  - rewrite checkElement_wf by (apply Hsub; now left). simpl.
    rewrite IH by (intros e He; apply Hsub; now right).
    now rewrite <- app_assoc.
Qed.

Lemma compareAPIs_expected :
  compareAPIs oldAPI newAPI = Ok (expectedProblems oldAPI newAPI).
Proof.
  unfold compareAPIs, expectedProblems.
  rewrite (wellFormed_keys _ old_well_formed), (wellFormed_keys _ new_well_formed).
  simpl. rewrite forEach_wf by trivial. now rewrite missingElements_spec.
Qed.

End WellFormedPair.

Lemma reportable_same (unsafe : option value) (v : value) :
  reportable unsafe v v = false.
Proof.
  unfold reportable, strict_neq. rewrite strict_eq_refl. now destruct unsafe.
Qed.

Lemma attributeProblems_self (api : value) (phetioID : string)
    (rows : list (string * option value)) :
  flat_map (attributeProblems api api phetioID) rows = [].
Proof.
  induction rows as [ | row rows IH ]; simpl; [ reflexivity | ].
  rewrite IH, app_nil_r. unfold attributeProblems. now rewrite reportable_same.
Qed.

Lemma expectedProblems_self (api : value) : expectedProblems api api = [].
Proof.
  unfold expectedProblems, missingProblems. rewrite removed_self.
  cbn [app].
  induction (sharedElements (keysOrEmpty api) (keysOrEmpty api)) as [ | x l IH ];
    [ reflexivity | ].
  cbn [flat_map]. now rewrite IH, attributeProblems_self.
Qed.

Lemma compareAPIs_self (api : value) :
  wellFormed api = true -> compareAPIs api api = Ok [].
Proof.
  intro Hwf. rewrite compareAPIs_expected; trivial. now rewrite expectedProblems_self.
Qed.

(** ** Congruence: what the result depends on *)

Lemma reportDifferences_ext (a1 a2 b1 b2 : value) (phetioID k : string)
    (invalidNewValue : value) (problems : list Problem) :
  metadataOf a1 phetioID k = metadataOf b1 phetioID k ->
  metadataOf a2 phetioID k = metadataOf b2 phetioID k ->
  reportDifferences a1 a2 phetioID k invalidNewValue problems
  = reportDifferences b1 b2 phetioID k invalidNewValue problems.
Proof.
  intros H1 H2. unfold reportDifferences. now rewrite H1, H2.
Qed.

Lemma checkElement_ext (a1 a2 b1 b2 : value) (elements2 : list string)
    (problems : list Problem) (phetioID : string) :
  (forall k, In k recognizedKeys -> metadataOf a1 phetioID k = metadataOf b1 phetioID k) ->
  (forall k, In k recognizedKeys -> metadataOf a2 phetioID k = metadataOf b2 phetioID k) ->
  checkElement a1 a2 elements2 problems phetioID
  = checkElement b1 b2 elements2 problems phetioID.
Proof.
  intros H1 H2. unfold checkElement.
  destruct (includes elements2 phetioID); [ | reflexivity ].
  repeat
    match goal with
    | |- bind (reportDifferences a1 a2 _ ?k ?u ?p) _ = _ =>
        rewrite (reportDifferences_ext a1 a2 b1 b2 phetioID k u p);
        [ destruct (reportDifferences b1 b2 phetioID k u p); cbn [bind];
          [ | reflexivity ]
        | apply H1; unfold recognizedKeys; simpl; tauto
        | apply H2; unfold recognizedKeys; simpl; tauto ]
    end.
  apply reportDifferences_ext; [ apply H1 | apply H2 ];
    unfold recognizedKeys; simpl; tauto.
Qed.

Lemma forEach_ext {S : Type} (f g : S -> string -> result S) (l : list string) (s : S) :
  (forall s' x, In x l -> f s' x = g s' x) -> forEach f l s = forEach g l s.
Proof.
  revert s. induction l as [ | x l IH ]; intros s H; simpl; [ reflexivity | ].
  rewrite (H s x) by now left. destruct (g s x); simpl; [ | reflexivity ].
  apply IH. intros s' y Hy. apply H. now right.
Qed.

Lemma compareAPIs_ext (a1 a2 b1 b2 : value) :
  elementsOf a1 = elementsOf b1 -> elementsOf a2 = elementsOf b2 ->
  (forall phetioID k, In k recognizedKeys ->
     metadataOf a1 phetioID k = metadataOf b1 phetioID k) ->
  (forall phetioID k, In k recognizedKeys ->
     metadataOf a2 phetioID k = metadataOf b2 phetioID k) ->
  compareAPIs a1 a2 = compareAPIs b1 b2.
Proof.
  intros E1 E2 H1 H2. unfold compareAPIs. rewrite E1, E2.
  destruct (elementsOf b1) as [ l1 | ]; simpl; [ | reflexivity ].
  destruct (elementsOf b2) as [ l2 | ]; simpl; [ | reflexivity ].
  apply forEach_ext. intros s x _. apply checkElement_ext; auto.
Qed.

(** ** Setting an attribute *)

Lemma lookup_setField_same (k : string) (v : value) (fields : list (string * value)) :
  lookup k (setField k v fields) = Some v.
Proof.
  induction fields as [ | [k' v'] rest IH ]; simpl.
  - now rewrite String.eqb_refl.
  - destruct (String.eqb k' k) eqn:Hk; simpl; now rewrite Hk.
Qed.

Lemma lookup_setField_other (k k' : string) (v : value)
    (fields : list (string * value)) :
  k' <> k -> lookup k' (setField k v fields) = lookup k' fields.
Proof.
  intro Hne. induction fields as [ | [k0 v0] rest IH ]; simpl.
  - destruct (String.eqb k k') eqn:Hk; [ | reflexivity ].
    apply String.eqb_eq in Hk. now elim Hne.
  - destruct (String.eqb k0 k) eqn:Hk; simpl.
    + apply String.eqb_eq in Hk. subst k0.
      destruct (String.eqb k k') eqn:Hk'; [ | reflexivity ].
      apply String.eqb_eq in Hk'. now elim Hne.
    + now rewrite IH.
Qed.

Lemma keys_setField (k : string) (v x : value) (fields : list (string * value)) :
  lookup k fields = Some x -> map fst (setField k v fields) = map fst fields.
Proof.
  induction fields as [ | [k' v'] rest IH ]; simpl; [ discriminate | ].
  destruct (String.eqb k' k); simpl; [ reflexivity | ].
  intro H. now rewrite IH.
Qed.

Lemma withAttribute_keys (phetioID k : string) (v : value) (api : value) :
  elementsOf (withAttribute phetioID k v api) = elementsOf api.
Proof.
  unfold withAttribute.
  destruct api as [ | | ? | ? | ? | ? ? | a top ]; try reflexivity.
  destruct (lookup "phetioElements" top) as [ [ | | ? | ? | ? | ? ? | b els ] | ] eqn:Htop;
    try reflexivity.
  destruct (lookup phetioID els) as [ [ | | ? | ? | ? | ? ? | c attrs ] | ] eqn:Hid;
    try reflexivity.
  unfold elementsOf. simpl. rewrite lookup_setField_same, Htop. simpl.
  now rewrite (keys_setField _ _ _ _ Hid).
Qed.

Lemma withAttribute_other (phetioID k : string) (v : value) (api : value)
    (phetioID' k' : string) :
  k' <> k ->
  metadataOf (withAttribute phetioID k v api) phetioID' k' = metadataOf api phetioID' k'.
Proof.
  intro Hne. unfold withAttribute.
  destruct api as [ | | ? | ? | ? | ? ? | a top ]; try reflexivity.
  destruct (lookup "phetioElements" top) as [ [ | | ? | ? | ? | ? ? | b els ] | ] eqn:Htop;
    try reflexivity.
  destruct (lookup phetioID els) as [ [ | | ? | ? | ? | ? ? | c attrs ] | ] eqn:Hid;
    try reflexivity.
  unfold metadataOf. simpl. rewrite lookup_setField_same, Htop. simpl.
  destruct (String.eqb phetioID' phetioID) eqn:Hsame.
  - apply String.eqb_eq in Hsame. subst phetioID'.
    rewrite lookup_setField_same, Hid. simpl.
    now rewrite lookup_setField_other.
  - apply String.eqb_neq in Hsame. now rewrite lookup_setField_other.
Qed.

Lemma withAttribute_sets (phetioID k : string) (v : value)
    (a : positive) (top : list (string * value)) :
  wellFormed (VObj a top) = true -> In phetioID (keysOrEmpty (VObj a top)) ->
  metadataOf (withAttribute phetioID k v (VObj a top)) phetioID k = Ok v.
Proof.
  intros Hwf Hin. destruct (wellFormed_inv _ Hwf) as (b & els & Hget & Hall).
  unfold keysOrEmpty, elementsOf in Hin. rewrite Hget in Hin. simpl in Hin.
  destruct (lookup_keys _ _ Hin) as [e He].
  assert (Hrec : isRecord e = true).
  { rewrite forallb_forall in Hall. exact (Hall (phetioID, e) (lookup_In _ _ _ He)). }
  simpl in Hget. unfold withAttribute.
  destruct (lookup "phetioElements" top) as [ pe | ]; [ | discriminate ].
  injection Hget as ->. rewrite He.
  destruct e as [ | | ? | ? | ? | ? ? | c attrs ]; try discriminate.
  unfold metadataOf. simpl. rewrite !lookup_setField_same. simpl.
  rewrite lookup_setField_same. simpl. now rewrite lookup_setField_same.
Qed.

Lemma excluded_not_recognized (k k' : string) :
  In k excludedAttributes -> In k' recognizedKeys -> k' <> k.
Proof.
  unfold excludedAttributes, recognizedKeys. simpl.
  intros Hk Hk' ->.
  destruct Hk as [ <- | [ <- | [ <- | [] ] ] ]; intuition discriminate.
Qed.

Lemma compareAPIs_withAttribute (oldAPI newAPI : value) (phetioID k : string)
    (v1 v2 : value) :
  In k excludedAttributes ->
  compareAPIs (withAttribute phetioID k v1 oldAPI) (withAttribute phetioID k v2 newAPI)
  = compareAPIs oldAPI newAPI.
Proof.
  intro Hk. apply compareAPIs_ext.
  - apply withAttribute_keys.
  - apply withAttribute_keys.
  - intros id k' Hk'. apply withAttribute_other.
    now apply (excluded_not_recognized k k').
  - intros id k' Hk'. apply withAttribute_other.
    now apply (excluded_not_recognized k k').
Qed.

Lemma shared_idem (l1 l2 : list string) :
  sharedElements (sharedElements l1 l2) l2 = sharedElements l1 l2.
Proof.
  unfold sharedElements. induction l1 as [ | x l1 IH ]; simpl; [ reflexivity | ].
  destruct (includes l2 x) eqn:Hx; simpl; [ | assumption ].
  now rewrite Hx, IH.
Qed.

Lemma keysOrEmpty_of (api : value) (l : list string) :
  elementsOf api = Ok l -> keysOrEmpty api = l.
Proof. intro H. unfold keysOrEmpty. now rewrite H. Qed.

Lemma includes_iff (l l' : list string) (e : string) :
  (In e l' <-> In e l) -> includes l' e = includes l e.
Proof.
  intro H. destruct (includes l e) eqn:Hl.
  - apply includes_In. apply H. now apply includes_In.
  - apply includes_false. intro Hin. apply includes_false in Hl. tauto.
Qed.

Lemma checkElement_agree (a b b' : value) (l2 l2' : list string)
    (problems : list Problem) (phetioID : string) :
  includes l2' phetioID = includes l2 phetioID ->
  (forall k, In k recognizedKeys -> metadataOf b' phetioID k = metadataOf b phetioID k) ->
  checkElement a b' l2' problems phetioID = checkElement a b l2 problems phetioID.
Proof.
  intros Hinc Hmeta.
  rewrite (checkElement_ext a b' a b l2' problems phetioID); auto.
  unfold checkElement. now rewrite Hinc.
Qed.

Lemma compareAPIs_agree (a b b' : value) (l1 l2 l2' : list string) :
  elementsOf a = Ok l1 -> elementsOf b = Ok l2 -> elementsOf b' = Ok l2' ->
  (forall e, In e l1 -> includes l2' e = includes l2 e) ->
  (forall e k, In e l1 -> In k recognizedKeys -> metadataOf b' e k = metadataOf b e k) ->
  compareAPIs a b' = compareAPIs a b.
Proof.
  intros E1 E2 E2' Hinc Hmeta. unfold compareAPIs. rewrite E1, E2, E2'. simpl.
  rewrite !missingElements_unguarded. unfold missingElementsUnguarded.
  rewrite (filter_ext_in (fun e => negb (includes l2' e))
             (fun e => negb (includes l2 e)) l1)
    by (intros e He; now rewrite Hinc).
  apply forEach_ext. intros s x Hx. apply checkElement_agree; auto.
Qed.

Lemma reportable_In_expected (oldAPI newAPI : value) (phetioID : string)
    (row : string * option value) :
  In phetioID (keysOrEmpty oldAPI) -> In phetioID (keysOrEmpty newAPI) ->
  In row recognizedAttributes ->
  reportable (snd row) (attributeOf oldAPI phetioID (fst row))
    (attributeOf newAPI phetioID (fst row)) = true ->
  In (changeProblem phetioID (fst row) (attributeOf oldAPI phetioID (fst row))
        (attributeOf newAPI phetioID (fst row)))
     (expectedProblems oldAPI newAPI).
Proof.
  intros H1 H2 Hrow Hrep. unfold expectedProblems.
  apply in_or_app. right. apply in_flat_map. exists phetioID. split.
  - now apply shared_In.
  - apply in_flat_map. exists row. split; [ assumption | ].
    unfold attributeProblems. rewrite Hrep. now left.
Qed.

Lemma mappingAbsent_throws (api : value) :
  mappingAbsent api = true -> elementsOf api = Throw TypeError.
Proof.
  unfold mappingAbsent, elementsOf.
  destruct (getProp api "phetioElements") as [ [ | | ? | ? | ? | ? ? | ? ? ] | [] ];
    simpl; (reflexivity || discriminate).
Qed.

(** * The claims *)

(** C1.  When the first description has identifiers that the second lacks,
    the result of the comparison starts with one Problem whose message is the
    label "Second API missing elements:" followed by all the removed
    identifiers, joined by newline and tab, and the remaining problems are
    those of the attribute checks on the shared identifiers.  Identifiers
    that only the second description has produce nothing: a second
    description that agrees with this one on the identifiers of the first
    gives the same result. *)
Theorem removed_elements_one_problem (oldAPI newAPI : value)
    (elements1 elements2 : list string) :
  wellFormed oldAPI = true -> wellFormed newAPI = true ->
  elementsOf oldAPI = Ok elements1 -> elementsOf newAPI = Ok elements2 ->
  (removedElements elements1 elements2 <> [] ->
   exists rest,
     compareAPIs oldAPI newAPI
     = Ok ({| message := ("Second API missing elements:" ++ nl_tab
                          ++ join nl_tab (removedElements elements1 elements2))%string |}
           :: rest)
     /\ forEach (checkElement oldAPI newAPI elements2)
          (sharedElements elements1 elements2) [] = Ok rest)
  /\ (forall newAPI' elements2',
        elementsOf newAPI' = Ok elements2' ->
        (forall e, In e elements1 ->
           (In e elements2' <-> In e elements2)
           /\ forall k, metadataOf newAPI' e k = metadataOf newAPI e k) ->
        compareAPIs oldAPI newAPI' = compareAPIs oldAPI newAPI).
Proof.
  intros Hw1 Hw2 E1 E2. split.
  - intro Hrem.
    exists (flat_map (fun phetioID =>
                        flat_map (attributeProblems oldAPI newAPI phetioID)
                          recognizedAttributes)
              (sharedElements elements1 elements2)).
    split.
    + rewrite compareAPIs_expected; trivial. unfold expectedProblems.
      rewrite (keysOrEmpty_of _ _ E1), (keysOrEmpty_of _ _ E2).
      unfold missingProblems, missingMessage.
      destruct (removedElements elements1 elements2); [ now elim Hrem | reflexivity ].
    + rewrite <- (keysOrEmpty_of _ _ E2).
      rewrite forEach_wf; trivial.
      * rewrite shared_idem. reflexivity.
      * intros e He. apply shared_In in He.
        rewrite (keysOrEmpty_of _ _ E1). tauto.
  - intros newAPI' elements2' E2' Hagree.
    apply (compareAPIs_agree oldAPI newAPI newAPI' elements1 elements2 elements2');
      trivial.
    + intros e He. apply includes_iff. now apply Hagree.
    + intros e k He _. now apply Hagree.
Qed.

Lemma removed_elements_one_problem_witness :
  (exists rest,
     compareAPIs sampleOld sampleNew
     = Ok ({| message := ("Second API missing elements:" ++ nl_tab
                          ++ "sim.y" ++ nl_tab ++ "sim.z")%string |} :: rest)
     /\ forEach (checkElement sampleOld sampleNew ["sim.w"; "sim.x"]) ["sim.x"] []
        = Ok rest)
  /\ compareAPIs sampleOld sampleNewTrimmed = compareAPIs sampleOld sampleNew.
Proof.
  pose proof (removed_elements_one_problem sampleOld sampleNew
                ["sim.x"; "sim.y"; "sim.z"] ["sim.w"; "sim.x"]
                eq_refl eq_refl eq_refl eq_refl) as [Hfirst Hadded].
  split.
  - apply Hfirst. discriminate.
  - apply (Hadded sampleNewTrimmed ["sim.x"] eq_refl).
    intros e [ <- | [ <- | [ <- | [] ] ] ]; (split; [ | intro k ]);
      try reflexivity; simpl; intuition discriminate.
Defined.



(** C3.  For a directional attribute ([phetioState] with unsafe value
    [false], [phetioReadOnly] with unsafe value [true]) whose old and new
    values are [o] and [n]: the check pushes the Problem exactly when
    [n === unsafe] and [o !== n]; when the identifier is in both
    (well-formed) descriptions, a Problem so pushed is in the result of the
    comparison.  And the comparison of two well-formed descriptions holds,
    for each identifier in both and after the Problems of the six other
    attributes, the Problem of [phetioState] exactly when its value changed
    and is [false] now, then the Problem of [phetioReadOnly] exactly when its
    value changed and is [true] now, and nothing else. *)
Theorem directional_change_reported (oldAPI newAPI : value) :
  (forall (phetioID k : string) (unsafe : value) (problems : list Problem)
          (o n : value) (so sn : string),
     In (k, unsafe) directionalAttributes ->
     metadataOf oldAPI phetioID k = Ok o -> metadataOf newAPI phetioID k = Ok n ->
     to_string o = Ok so -> to_string n = Ok sn ->
     let problem :=
       {| message :=
            (phetioID ++ "." ++ k ++ " changed from " ++ so ++ " to " ++ sn)%string |}
     in
     reportDifferences oldAPI newAPI phetioID k unsafe problems
     = Ok (if strict_eq n unsafe && strict_neq o n
           then problems ++ [ problem ] else problems)
     /\ (wellFormed oldAPI = true -> wellFormed newAPI = true ->
         In phetioID (keysOrEmpty oldAPI) -> In phetioID (keysOrEmpty newAPI) ->
         strict_eq n unsafe && strict_neq o n = true ->
         exists out, compareAPIs oldAPI newAPI = Ok out /\ In problem out))
  /\ (wellFormed oldAPI = true -> wellFormed newAPI = true ->
      compareAPIs oldAPI newAPI
      = Ok (missingProblems (keysOrEmpty oldAPI) (keysOrEmpty newAPI)
            ++ flat_map
                 (fun phetioID =>
                    flat_map (attributeProblems oldAPI newAPI phetioID)
                      [ ("phetioTypeName", None);
                        ("phetioEventType", None);
                        ("phetioPlayback", None);
                        ("phetioDynamicElement", None);
                        ("phetioIsArchetype", None);
                        ("phetioArchetypePhetioID", None) ]
                    ++ (if strict_eq (attributeOf newAPI phetioID "phetioState")
                             (VBool false)
                           && strict_neq (attributeOf oldAPI phetioID "phetioState")
                                (attributeOf newAPI phetioID "phetioState")
                        then [ {| message :=
                                    (phetioID ++ ".phetioState changed from "
                                     ++ printed (attributeOf oldAPI phetioID "phetioState")
                                     ++ " to "
                                     ++ printed (attributeOf newAPI phetioID "phetioState")
                                    )%string |} ]
                        else [])
                    ++ (if strict_eq (attributeOf newAPI phetioID "phetioReadOnly")
                             (VBool true)
                           && strict_neq (attributeOf oldAPI phetioID "phetioReadOnly")
                                (attributeOf newAPI phetioID "phetioReadOnly")
                        then [ {| message :=
                                    (phetioID ++ ".phetioReadOnly changed from "
                                     ++ printed (attributeOf oldAPI phetioID "phetioReadOnly")
                                     ++ " to "
                                     ++ printed (attributeOf newAPI phetioID "phetioReadOnly")
                                    )%string |} ]
                        else []))
                 (filter (includes (keysOrEmpty newAPI)) (keysOrEmpty oldAPI)))).
Proof.
  split.
  - intros phetioID k unsafe problems o n so sn Hk Ho Hn Hso Hsn problem.
    assert (Hp : problem = changeProblem phetioID k o n).
    { unfold problem, changeProblem, printed. now rewrite Hso, Hsn. }
    assert (Hu : properUnsafe (Some unsafe)).
    { destruct Hk as [ H | [ H | [] ] ]; injection H as <- <-; reflexivity. }
    split.
    + pose proof (reportDifferences_eval oldAPI newAPI phetioID k (Some unsafe)
                    problems o n so sn Hu Ho Hn Hso Hsn) as E.
      cbn [invalidNewValueOf] in E. rewrite E.
      simpl. rewrite <- Hp, (andb_comm (strict_eq n unsafe)).
      destruct (strict_neq o n && strict_eq n unsafe);
        [ reflexivity | now rewrite app_nil_r ].
    + intros Hw1 Hw2 Hi1 Hi2 Hrep. exists (expectedProblems oldAPI newAPI).
      split; [ now apply compareAPIs_expected | ].
      pose proof (reportable_In_expected oldAPI newAPI phetioID (k, Some unsafe)
                    Hi1 Hi2) as R.
      unfold attributeOf in R. simpl in R. rewrite Ho, Hn in R. rewrite Hp.
      apply R; [ | now rewrite andb_comm ].
      unfold recognizedAttributes.
      destruct Hk as [ H | [ H | [] ] ]; injection H as <- <-; simpl; tauto.
  - intros Hw1 Hw2. rewrite compareAPIs_expected by assumption.
    unfold expectedProblems, sharedElements. do 2 f_equal.
    apply flat_map_ext. intro phetioID.
    unfold recognizedAttributes. cbn [flat_map].
    repeat rewrite <- app_assoc. cbn [app]. do 6 f_equal.
    unfold attributeProblems, changeProblem. cbn [fst snd reportable].
    rewrite (andb_comm (strict_neq (attributeOf oldAPI phetioID "phetioState") _)).
    rewrite (andb_comm (strict_neq (attributeOf oldAPI phetioID "phetioReadOnly") _)).
    now rewrite app_nil_r.
Qed.

Lemma directional_change_reported_witness :
  (reportDifferences sampleOld sampleNew "sim.x" "phetioState" (VBool false) []
   = Ok [ {| message := "sim.x.phetioState changed from true to false" |} ]
   /\ exists out, compareAPIs sampleOld sampleNew = Ok out
                  /\ In {| message := "sim.x.phetioState changed from true to false" |}
                       out)
  /\ compareAPIs directionOld directionNew
     = Ok [ {| message := "sim.x.phetioState changed from true to false" |};
            {| message := "sim.x.phetioReadOnly changed from false to true" |};
            {| message := "sim.z.phetioState changed from undefined to false" |};
            {| message := "sim.z.phetioReadOnly changed from undefined to true" |} ].
Proof.
  split.
  - pose proof (proj1 (directional_change_reported sampleOld sampleNew)
                  "sim.x" "phetioState" (VBool false) [] (VBool true) (VBool false)
                  "true" "false"
                  (or_introl eq_refl) eq_refl eq_refl eq_refl eq_refl)
      as [Hcheck Hout].
    split.
    + exact Hcheck.
    + apply Hout; try reflexivity; simpl; tauto.
  - exact (proj2 (directional_change_reported directionOld directionNew)
             eq_refl eq_refl).
Defined.

(** C4.  Comparing a well-formed description against itself yields no
    Problem. *)
Theorem compare_reflexive (api : value) :
  wellFormed api = true -> compareAPIs api api = Ok [].
Proof.
  intro Hwf. rewrite compareAPIs_expected by assumption.
  now rewrite expectedProblems_self.
Qed.

Lemma compare_reflexive_witness : compareAPIs sampleOld sampleOld = Ok [].
Proof.
  apply (compare_reflexive sampleOld). reflexivity.
Defined.

(** C5.  When the two mappings enumerate the same set of identifiers, in
    whatever order, the check of the identifier sets pushes no Problem, and
    the result of the comparison is what the attribute checks produce from
    an empty sequence. *)
Theorem same_identifier_set_no_missing (api1 api2 : value)
    (elements1 elements2 : list string) :
  elementsOf api1 = Ok elements1 -> elementsOf api2 = Ok elements2 ->
  (forall e, In e elements1 <-> In e elements2) ->
  missingElements elements1 elements2 = []
  /\ compareAPIs api1 api2 = forEach (checkElement api1 api2 elements2) elements1 [].
Proof.
  intros E1 E2 Hsame.
  assert (Hnone : missingElements elements1 elements2 = []).
  { rewrite missingElements_spec. unfold missingProblems.
    assert (Hrem : removedElements elements1 elements2 = [])
      by (apply removed_nil_iff; intros e He; now apply Hsame).
    now rewrite Hrem. }
  split; [ assumption | ].
  unfold compareAPIs. rewrite E1, E2. simpl. now rewrite Hnone.
Qed.

Lemma same_identifier_set_no_missing_witness :
  missingElements ["sim.x"; "sim.y"; "sim.z"] ["sim.z"; "sim.x"; "sim.y"] = []
  /\ compareAPIs sampleOld sampleReordered
     = forEach (checkElement sampleOld sampleReordered ["sim.z"; "sim.x"; "sim.y"])
         ["sim.x"; "sim.y"; "sim.z"] [].
Proof.
  apply (same_identifier_set_no_missing sampleOld sampleReordered
           ["sim.x"; "sim.y"; "sim.z"] ["sim.z"; "sim.x"; "sim.y"] eq_refl eq_refl).
  intro e. simpl. tauto.
Defined.

(** C6.  The attributes [phetioFeatured], [phetioStudioControl] and
    [phetioHighFrequency] never contribute: whatever values one of them is
    given in a record of the old and of the new description, the result of
    the comparison stays what it was; in particular a well-formed description
    compared with itself, the attribute changed, yields no Problem. *)
Theorem excluded_attributes_never_report (oldAPI newAPI : value)
    (phetioID k : string) (v1 v2 : value) :
  In k excludedAttributes ->
  compareAPIs (withAttribute phetioID k v1 oldAPI) (withAttribute phetioID k v2 newAPI)
  = compareAPIs oldAPI newAPI
  /\ (wellFormed oldAPI = true ->
      compareAPIs (withAttribute phetioID k v1 oldAPI) (withAttribute phetioID k v2 oldAPI)
      = Ok []).
Proof.
  intro Hk. split.
  - now apply compareAPIs_withAttribute.
  - intro Hwf. rewrite compareAPIs_withAttribute by assumption.
    now apply compareAPIs_self.
Qed.

Lemma excluded_attributes_never_report_witness :
  metadataOf (withAttribute "sim.x" "phetioFeatured" (VBool true) sampleOld)
    "sim.x" "phetioFeatured" = Ok (VBool true)
  /\ metadataOf (withAttribute "sim.x" "phetioFeatured" (VBool false) sampleOld)
       "sim.x" "phetioFeatured" = Ok (VBool false)
  /\ compareAPIs (withAttribute "sim.x" "phetioFeatured" (VBool true) sampleOld)
       (withAttribute "sim.x" "phetioFeatured" (VBool false) sampleOld)
     = Ok [].
Proof.
  split; [ reflexivity | split; [ reflexivity | ] ].
  apply (excluded_attributes_never_report sampleOld sampleNew "sim.x" "phetioFeatured"
           (VBool true) (VBool false)).
  - simpl. tauto.
  - reflexivity.
Defined.

(** C7.  The result of comparing two well-formed descriptions is, in this
    order: the missing-elements Problem if there is one; then, for each
    identifier of the first description that the second has too, in the order
    the first description enumerates them, the Problems of the recognized
    attributes in their declaration order. *)
Theorem problems_in_check_order (oldAPI newAPI : value)
    (elements1 elements2 : list string) :
  wellFormed oldAPI = true -> wellFormed newAPI = true ->
  elementsOf oldAPI = Ok elements1 -> elementsOf newAPI = Ok elements2 ->
  compareAPIs oldAPI newAPI
  = Ok (missingProblems elements1 elements2
        ++ flat_map (fun phetioID =>
                       flat_map (attributeProblems oldAPI newAPI phetioID)
                         [ ("phetioTypeName", None);
                           ("phetioEventType", None);
                           ("phetioPlayback", None);
                           ("phetioDynamicElement", None);
                           ("phetioIsArchetype", None);
                           ("phetioArchetypePhetioID", None);
                           ("phetioState", Some (VBool false));
                           ("phetioReadOnly", Some (VBool true)) ])
             (filter (includes elements2) elements1)).
Proof.
  intros Hw1 Hw2 E1 E2. rewrite compareAPIs_expected by assumption.
  unfold expectedProblems.
  now rewrite (keysOrEmpty_of _ _ E1), (keysOrEmpty_of _ _ E2).
Qed.

Lemma problems_in_check_order_witness :
  compareAPIs orderOld orderNew
  = Ok [ {| message := ("Second API missing elements:" ++ nl_tab ++ "sim.c")%string |};
         {| message := "sim.b.phetioTypeName changed from T to U" |};
         {| message := "sim.b.phetioReadOnly changed from false to true" |};
         {| message := "sim.a.phetioEventType changed from E to F" |};
         {| message := "sim.a.phetioState changed from true to false" |} ].
Proof.
  exact (problems_in_check_order orderOld orderNew
           ["sim.b"; "sim.a"; "sim.c"] ["sim.a"; "sim.b"]
           eq_refl eq_refl eq_refl eq_refl).
Defined.

(** C8 as stated fails: a mapping that is malformed without being absent is
    not rejected.  A boolean under [phetioElements] enumerates no identifier
    and the comparison returns the empty sequence; a [null] record is only
    met, and only then throws, when the other description has the identifier
    too. *)
Lemma malformed_mapping_not_rejected :
  wellFormed booleanMapping = false
  /\ compareAPIs booleanMapping booleanMapping = Ok []
  /\ compareAPIs booleanMapping sampleOld = Ok []
  /\ wellFormed nullRecord = false
  /\ compareAPIs nullRecord emptyMapping
     = Ok [ {| message := ("Second API missing elements:" ++ nl_tab ++ "sim.x")%string |} ]
  /\ compareAPIs nullRecord nullRecord = Throw TypeError.
Proof.
  repeat split.
Qed.

(** C8, amended.  The comparison of two well-formed descriptions returns a
    sequence of Problems; so it throws only if the mapping is absent or
    malformed on at least one side; and it does throw whenever the mapping is
    absent ([undefined] or [null]) on at least one side, which is never taken
    for an empty mapping. *)
Theorem compare_total_on_well_formed (api1 api2 : value) :
  (wellFormed api1 = true -> wellFormed api2 = true ->
   exists problems, compareAPIs api1 api2 = Ok problems)
  /\ (forall e, compareAPIs api1 api2 = Throw e ->
      wellFormed api1 = false \/ wellFormed api2 = false)
  /\ (mappingAbsent api1 = true \/ mappingAbsent api2 = true ->
      compareAPIs api1 api2 = Throw TypeError).
Proof.
  split; [ | split ].
  - intros Hw1 Hw2. exists (expectedProblems api1 api2).
    now apply compareAPIs_expected.
  - intros e Hthrow.
    destruct (wellFormed api1) eqn:Hw1; [ | now left ].
    destruct (wellFormed api2) eqn:Hw2; [ | now right ].
    rewrite compareAPIs_expected in Hthrow by assumption. discriminate.
  - intros [ Habs | Habs ]; apply mappingAbsent_throws in Habs; unfold compareAPIs.
    + now rewrite Habs.
    + rewrite Habs. now destruct (elementsOf api1) as [ l | [] ].
Qed.

Lemma compare_total_on_well_formed_witness :
  (exists problems, compareAPIs sampleOld sampleNew = Ok problems)
  /\ compareAPIs sampleOld noMapping = Throw TypeError.
Proof.
  split.
  - apply (proj1 (compare_total_on_well_formed sampleOld sampleNew)); reflexivity.
  - apply (proj2 (proj2 (compare_total_on_well_formed sampleOld noMapping))).
    right. reflexivity.
Defined.

(** C9.  The guard of line 17 is an optimization only: the comparator gives,
    on every pair of inputs, the result of the variant that always computes
    the difference; and the check of the identifier sets pushes a Problem
    exactly when some identifier of the first description is not in the
    second. *)
Theorem guard_is_optimization :
  (forall api1 api2, compareAPIs api1 api2 = compareAPIsUnguarded api1 api2)
  /\ (forall elements1 elements2,
        missingElements elements1 elements2 <> []
        <-> exists e, In e elements1 /\ ~ In e elements2).
Proof.
  split.
  - intros api1 api2. unfold compareAPIs, compareAPIsUnguarded.
    destruct (elementsOf api1) as [ l1 | ]; simpl; [ | reflexivity ].
    destruct (elementsOf api2) as [ l2 | ]; simpl; [ | reflexivity ].
    now rewrite missingElements_unguarded.
  - intros l1 l2. rewrite missingElements_spec. unfold missingProblems. split.
    + destruct (removedElements l1 l2) as [ | x rest ] eqn:Hrem;
        [ intro H; now elim H | ].
      intros _. exists x. apply removed_In. rewrite Hrem. now left.
    + intros [e He]. apply removed_In in He.
      destruct (removedElements l1 l2); [ contradiction | discriminate ].
Qed.

(** C10.  The result depends on each argument through its [phetioElements]
    only: two pairs of arguments whose first members read the same under
    [phetioElements], and whose second members do, compare alike. *)
Theorem depends_only_on_phetioElements (a1 a2 b1 b2 : value) :
  getProp a1 "phetioElements" = getProp b1 "phetioElements" ->
  getProp a2 "phetioElements" = getProp b2 "phetioElements" ->
  compareAPIs a1 a2 = compareAPIs b1 b2.
Proof.
  intros H1 H2. apply compareAPIs_ext.
  - unfold elementsOf. now rewrite H1.
  - unfold elementsOf. now rewrite H2.
  - intros id k _. unfold metadataOf. now rewrite H1.
  - intros id k _. unfold metadataOf. now rewrite H2.
Qed.

Lemma depends_only_on_phetioElements_witness :
  sampleOldRewrapped <> sampleOld
  /\ compareAPIs sampleOldRewrapped sampleNew = compareAPIs sampleOld sampleNew.
Proof.
  split; [ discriminate | ].
  apply (depends_only_on_phetioElements sampleOldRewrapped sampleNew sampleOld sampleNew);
    reflexivity.
Defined.

(** ** The transitions the design description names *)

Example state_true_to_false :
  compareAPIs (oneRecord 1 [ ("phetioState", VBool true) ])
    (oneRecord 5 [ ("phetioState", VBool false) ])
  = Ok [ {| message := "sim.x.phetioState changed from true to false" |} ].
Proof. reflexivity. Qed.

Example state_undefined_to_false :
  compareAPIs (oneRecord 1 [ ]) (oneRecord 5 [ ("phetioState", VBool false) ])
  = Ok [ {| message := "sim.x.phetioState changed from undefined to false" |} ].
Proof. reflexivity. Qed.

Example state_false_to_true :
  compareAPIs (oneRecord 1 [ ("phetioState", VBool false) ])
    (oneRecord 5 [ ("phetioState", VBool true) ])
  = Ok [].
Proof. reflexivity. Qed.

Example state_undefined_to_true :
  compareAPIs (oneRecord 1 [ ]) (oneRecord 5 [ ("phetioState", VBool true) ])
  = Ok [].
Proof. reflexivity. Qed.

Example readOnly_false_to_true :
  compareAPIs (oneRecord 1 [ ("phetioReadOnly", VBool false) ])
    (oneRecord 5 [ ("phetioReadOnly", VBool true) ])
  = Ok [ {| message := "sim.x.phetioReadOnly changed from false to true" |} ].
Proof. reflexivity. Qed.

Example readOnly_true_to_false :
  compareAPIs (oneRecord 1 [ ("phetioReadOnly", VBool true) ])
    (oneRecord 5 [ ("phetioReadOnly", VBool false) ])
  = Ok [].
Proof. reflexivity. Qed.

Example typeName_undefined_to_value :
  compareAPIs (oneRecord 1 [ ]) (oneRecord 5 [ ("phetioTypeName", VStr "T") ])
  = Ok [ {| message := "sim.x.phetioTypeName changed from undefined to T" |} ].
Proof. reflexivity. Qed.

Example end_to_end :
  compareAPIs
    (oneRecord 1 [ ("phetioTypeName", VStr "T1"); ("phetioState", VBool true) ])
    (oneRecord 5 [ ("phetioTypeName", VStr "T2"); ("phetioState", VBool false) ])
  = Ok [ {| message := "sim.x.phetioTypeName changed from T1 to T2" |};
         {| message := "sim.x.phetioState changed from true to false" |} ].
Proof. reflexivity. Qed.

(** * Further properties of the comparator *)

(** ** Problems are only ever appended *)

Lemma reportDifferences_frame (api1 api2 : value) (phetioID k : string)
    (invalidNewValue : value) (problems : list Problem) :
  reportDifferences api1 api2 phetioID k invalidNewValue problems
  = (r <- reportDifferences api1 api2 phetioID k invalidNewValue [] ;;
     Ok (problems ++ r)).
Proof.
  unfold reportDifferences.
  destruct (metadataOf api1 phetioID k) as [ o | ]; simpl; [ | reflexivity ].
  destruct (metadataOf api2 phetioID k) as [ n | ]; simpl; [ | reflexivity ].
  destruct (strict_neq o n); simpl; [ | now rewrite app_nil_r ].
  destruct (strict_eq invalidNewValue VUndefined); simpl.
  - destruct (changedMessage phetioID k o n); reflexivity.
  - destruct (strict_eq n invalidNewValue); simpl.
    + destruct (changedMessage phetioID k o n); reflexivity.
    + now rewrite app_nil_r.
Qed.

Lemma reportDifferences_at_most_one (api1 api2 : value) (phetioID k : string)
    (invalidNewValue : value) (r : list Problem) :
  reportDifferences api1 api2 phetioID k invalidNewValue [] = Ok r ->
  List.length r <= 1.
Proof.
  unfold reportDifferences.
  destruct (metadataOf api1 phetioID k) as [ o | ]; simpl; [ | discriminate ].
  destruct (metadataOf api2 phetioID k) as [ n | ]; simpl; [ | discriminate ].
  destruct (strict_neq o n); simpl; [ | intro H; injection H as <-; simpl; lia ].
  destruct (strict_eq invalidNewValue VUndefined); simpl.
  - destruct (changedMessage phetioID k o n); simpl; [ | discriminate ].
    intro H. injection H as <-. simpl. lia.
  - destruct (strict_eq n invalidNewValue); simpl.
    + destruct (changedMessage phetioID k o n); simpl; [ | discriminate ].
      intro H. injection H as <-. simpl. lia.
    + intro H. injection H as <-. simpl. lia.
Qed.

Lemma bind_Ok {A : Type} (c : result A) : (x <- c ;; Ok x) = c.
Proof. now destruct c. Qed.

Lemma checkElement_table (api1 api2 : value) (elements2 : list string)
    (problems : list Problem) (phetioID : string) :
  checkElement api1 api2 elements2 problems phetioID
  = if includes elements2 phetioID
    then reportAll api1 api2 phetioID recognizedAttributes problems
    else Ok problems.
Proof.
  unfold checkElement. destruct (includes elements2 phetioID); [ | reflexivity ].
  cbn [reportAll recognizedAttributes fst snd invalidNewValueOf].
  repeat
    match goal with
    | |- bind ?c _ = bind ?c _ => destruct c; cbn [bind]; [ | reflexivity ]
    end.
  now rewrite bind_Ok.
Qed.

Lemma reportAll_frame (api1 api2 : value) (phetioID : string)
    (rows : list (string * option value)) (problems : list Problem) :
  reportAll api1 api2 phetioID rows problems
  = (r <- reportAll api1 api2 phetioID rows [] ;; Ok (problems ++ r)).
Proof.
  revert problems. induction rows as [ | row rows IH ]; intro problems; simpl.
  - now rewrite app_nil_r.
  - rewrite reportDifferences_frame.
    destruct (reportDifferences api1 api2 phetioID (fst row)
                (invalidNewValueOf (snd row)) []) as [ r | ]; simpl; [ | reflexivity ].
    rewrite IH, (IH r).
    destruct (reportAll api1 api2 phetioID rows []) as [ r' | ]; simpl;
      [ | reflexivity ].
    now rewrite app_assoc.
Qed.

Lemma checkElement_frame (api1 api2 : value) (elements2 : list string)
    (problems : list Problem) (phetioID : string) :
  checkElement api1 api2 elements2 problems phetioID
  = (r <- checkElement api1 api2 elements2 [] phetioID ;; Ok (problems ++ r)).
Proof.
  rewrite !checkElement_table. destruct (includes elements2 phetioID).
  - apply reportAll_frame.
  - simpl. now rewrite app_nil_r.
Qed.

Lemma forEach_frame (api1 api2 : value) (elements2 l : list string)
    (problems : list Problem) :
  forEach (checkElement api1 api2 elements2) l problems
  = (r <- forEach (checkElement api1 api2 elements2) l [] ;; Ok (problems ++ r)).
Proof.
  revert problems. induction l as [ | x l IH ]; intro problems; simpl.
  - now rewrite app_nil_r.
  - rewrite checkElement_frame.
    destruct (checkElement api1 api2 elements2 [] x) as [ r | ]; simpl;
      [ | reflexivity ].
    rewrite IH, (IH r).
    destruct (forEach (checkElement api1 api2 elements2) l []) as [ r' | ]; simpl;
      [ | reflexivity ].
    now rewrite app_assoc.
Qed.

Lemma reportAll_length (api1 api2 : value) (phetioID : string)
    (rows : list (string * option value)) (r : list Problem) :
  reportAll api1 api2 phetioID rows [] = Ok r -> List.length r <= List.length rows.
Proof.
  revert r. induction rows as [ | row rows IH ]; intros r; simpl.
  - intro H. injection H as <-. simpl. lia.
  - destruct (reportDifferences api1 api2 phetioID (fst row)
                (invalidNewValueOf (snd row)) []) as [ r1 | ] eqn:H1; simpl;
      [ | discriminate ].
    rewrite reportAll_frame.
    destruct (reportAll api1 api2 phetioID rows []) as [ r2 | ]; simpl;
      [ | discriminate ].
    intro H. injection H as <-. rewrite length_app.
    pose proof (reportDifferences_at_most_one _ _ _ _ _ _ H1).
    pose proof (IH r2 eq_refl). lia.
Qed.

Lemma forEach_length (api1 api2 : value) (elements2 l : list string)
    (r : list Problem) :
  forEach (checkElement api1 api2 elements2) l [] = Ok r ->
  List.length r <= 8 * List.length (sharedElements l elements2).
Proof.
  revert r. induction l as [ | x l IH ]; intros r; simpl.
  - intro H. injection H as <-. simpl. lia.
  - destruct (checkElement api1 api2 elements2 [] x) as [ r1 | ] eqn:H1; simpl;
      [ | discriminate ].
    rewrite forEach_frame.
    destruct (forEach (checkElement api1 api2 elements2) l []) as [ r2 | ]; simpl;
      [ | discriminate ].
    intro H. injection H as <-. rewrite length_app.
    pose proof (IH r2 eq_refl) as Hl.
    rewrite checkElement_table in H1. unfold sharedElements in *. simpl.
    destruct (includes elements2 x); simpl.
    + apply reportAll_length in H1. simpl in H1. lia.
    + injection H1 as <-. simpl. lia.
Qed.

Lemma missingElements_length (l1 l2 : list string) :
  List.length (missingElements l1 l2) <= 1.
Proof.
  rewrite missingElements_spec. unfold missingProblems.
  destruct (removedElements l1 l2); simpl; lia.
Qed.

(** ** When the comparison throws *)

Lemma throw_TypeError {A : Type} (e : exn) : @Throw A e = Throw TypeError.
Proof. now destruct e. Qed.

Lemma elementsOf_throws (api : value) (e : exn) :
  elementsOf api = Throw e -> mappingAbsent api = true.
Proof.
  unfold mappingAbsent, elementsOf.
  destruct (getProp api "phetioElements") as [ [ | | ? | ? | ? | ? ? | ? ? ] | ? ];
    simpl; (reflexivity || discriminate).
Qed.

Lemma elementsOf_present (api : value) (e : string) :
  In e (keysOrEmpty api) -> mappingAbsent api = false.
Proof.
  unfold keysOrEmpty. intro Hin.
  destruct (mappingAbsent api) eqn:Habs; [ | reflexivity ].
  apply mappingAbsent_throws in Habs. rewrite Habs in Hin. destruct Hin.
Qed.

Lemma metadataOf_throws (api : value) (phetioID k : string) :
  (exists e, metadataOf api phetioID k = Throw e) <-> recordMissing api phetioID = true.
Proof.
  unfold metadataOf, recordMissing, recordOf.
  destruct (getProp api "phetioElements") as [ pe | e ]; simpl.
  - destruct (getProp pe phetioID) as [ r | e ]; simpl.
    + destruct r; simpl; split; intro H;
        try (destruct H; discriminate); try discriminate; try reflexivity;
        now exists TypeError.
    + split; [ reflexivity | intros _; now exists e ].
  - split; [ reflexivity | intros _; now exists e ].
Qed.

Lemma changedMessage_throws (phetioID k : string) (o n : value) :
  (exists e, changedMessage phetioID k o n = Throw e)
  <-> printable o = false \/ printable n = false.
Proof.
  unfold changedMessage, printable.
  destruct (to_string o) as [ so | e ]; simpl.
  - destruct (to_string n) as [ sn | e ]; simpl.
    + split; [ intros [e H]; discriminate | intros [ H | H ]; discriminate ].
    + split; [ now right | intros _; now exists e ].
  - split; [ now left | intros _; now exists e ].
Qed.

Lemma reportDifferences_throws (api1 api2 : value) (phetioID : string)
    (row : string * option value) (problems : list Problem) :
  properUnsafe (snd row) ->
  (exists e, reportDifferences api1 api2 phetioID (fst row)
               (invalidNewValueOf (snd row)) problems = Throw e)
  <-> recordMissing api1 phetioID = true
      \/ recordMissing api2 phetioID = true
      \/ (reportable (snd row) (attributeOf api1 phetioID (fst row))
            (attributeOf api2 phetioID (fst row)) = true
          /\ (printable (attributeOf api1 phetioID (fst row)) = false
              \/ printable (attributeOf api2 phetioID (fst row)) = false)).
Proof.
  intro Hu. destruct row as [k unsafe]. simpl in *.
  rewrite <- (metadataOf_throws api1 phetioID k), <- (metadataOf_throws api2 phetioID k).
  unfold reportDifferences, attributeOf.
  destruct (metadataOf api1 phetioID k) as [ o | e1 ]; simpl;
    [ | split; [ intros _; left; now exists e1 | intros _; now exists e1 ] ].
  destruct (metadataOf api2 phetioID k) as [ n | e2 ]; simpl;
    [ | split; [ intros _; right; left; now exists e2 | intros _; now exists e2 ] ].
  rewrite <- (changedMessage_throws phetioID k o n).
  assert (Hpush : forall (c : result string),
            (exists e, (m <- c ;; Ok (problems ++ [ {| message := m |} ])) = Throw e)
            <-> exists e, c = Throw e).
  { intros [ m | e ]; simpl; split; intros [e' H]; try discriminate; now exists e. }
  destruct unsafe as [ u | ]; simpl in *.
  - rewrite Hu. destruct (strict_neq o n); simpl.
    + destruct (strict_eq n u); simpl.
      * rewrite Hpush. split.
        -- intro H. right. right. now split.
        -- intros [ [e H] | [ [e H] | [_ H] ] ]; try discriminate. assumption.
      * split; [ intros [e H]; discriminate | ].
        intros [ [e H] | [ [e H] | [H _] ] ]; discriminate.
    + split; [ intros [e H]; discriminate | ].
      intros [ [e H] | [ [e H] | [H _] ] ]; discriminate.
  - destruct (strict_neq o n); simpl.
    + rewrite Hpush. split.
      * intro H. right. right. now split.
      * intros [ [e H] | [ [e H] | [_ H] ] ]; try discriminate. assumption.
    + split; [ intros [e H]; discriminate | ].
      intros [ [e H] | [ [e H] | [H _] ] ]; discriminate.
Qed.

Lemma reportDifferences_throws_any (api1 api2 : value) (phetioID k : string)
    (invalidNewValue : value) (problems problems' : list Problem) (e : exn) :
  reportDifferences api1 api2 phetioID k invalidNewValue problems = Throw e ->
  reportDifferences api1 api2 phetioID k invalidNewValue problems' = Throw TypeError.
Proof.
  rewrite reportDifferences_frame, (reportDifferences_frame _ _ _ _ _ problems').
  destruct (reportDifferences api1 api2 phetioID k invalidNewValue []); simpl;
    [ discriminate | intros _; apply throw_TypeError ].
Qed.

Lemma reportAll_throws (api1 api2 : value) (phetioID : string)
    (rows : list (string * option value)) (problems : list Problem) :
  (exists e, reportAll api1 api2 phetioID rows problems = Throw e)
  <-> exists row, In row rows
        /\ exists e, reportDifferences api1 api2 phetioID (fst row)
                       (invalidNewValueOf (snd row)) [] = Throw e.
Proof.
  revert problems. induction rows as [ | row rows IH ]; intro problems; simpl.
  - split; [ intros [e H]; discriminate | intros [row [[] _]] ].
  - destruct (reportDifferences api1 api2 phetioID (fst row)
                (invalidNewValueOf (snd row)) problems) as [ p | e ] eqn:Hrow; simpl.
    + rewrite IH. split.
      * intros [row' [Hin H]]. exists row'. split; [ now right | assumption ].
      * intros [row' [[ <- | Hin ] [e H]]].
        -- apply (reportDifferences_throws_any _ _ _ _ _ _ problems) in H.
           rewrite Hrow in H. discriminate.
        -- exists row'. split; [ assumption | now exists e ].
    + split; [ | intros _; now exists e ].
      intros _. exists row. split; [ now left | ].
      exists TypeError. now apply (reportDifferences_throws_any _ _ _ _ _ _ _ _ Hrow).
Qed.

Lemma checkElement_throws_any (api1 api2 : value) (elements2 : list string)
    (problems problems' : list Problem) (phetioID : string) (e : exn) :
  checkElement api1 api2 elements2 problems phetioID = Throw e ->
  checkElement api1 api2 elements2 problems' phetioID = Throw TypeError.
Proof.
  rewrite checkElement_frame, (checkElement_frame _ _ _ problems').
  destruct (checkElement api1 api2 elements2 [] phetioID); simpl;
    [ discriminate | intros _; apply throw_TypeError ].
Qed.

Lemma forEach_throws (api1 api2 : value) (elements2 l : list string)
    (problems : list Problem) :
  (exists e, forEach (checkElement api1 api2 elements2) l problems = Throw e)
  <-> exists x, In x l
        /\ exists e, checkElement api1 api2 elements2 [] x = Throw e.
Proof.
  revert problems. induction l as [ | x l IH ]; intro problems; simpl.
  - split; [ intros [e H]; discriminate | intros [x [[] _]] ].
  - destruct (checkElement api1 api2 elements2 problems x) as [ p | e ] eqn:Hx; simpl.
    + rewrite IH. split.
      * intros [y [Hin H]]. exists y. split; [ now right | assumption ].
      * intros [y [[ <- | Hin ] [e H]]].
        -- apply (checkElement_throws_any _ _ _ _ problems) in H.
           rewrite Hx in H. discriminate.
        -- exists y. split; [ assumption | now exists e ].
    + split; [ | intros _; now exists e ].
      intros _. exists x. split; [ now left | ].
      exists TypeError. now apply (checkElement_throws_any _ _ _ _ _ _ _ Hx).
Qed.

Lemma recognized_proper (row : string * option value) :
  In row recognizedAttributes -> properUnsafe (snd row).
Proof.
  unfold recognizedAttributes. simpl.
  intros [ <- | [ <- | [ <- | [ <- | [ <- | [ <- | [ <- | [ <- | [] ] ] ] ] ] ] ] ];
    simpl; trivial.
Qed.

Lemma checkElement_throws (api1 api2 : value) (elements2 : list string)
    (phetioID : string) :
  (exists e, checkElement api1 api2 elements2 [] phetioID = Throw e)
  <-> In phetioID elements2
      /\ (recordMissing api1 phetioID = true
          \/ recordMissing api2 phetioID = true
          \/ exists row, In row recognizedAttributes
               /\ reportable (snd row) (attributeOf api1 phetioID (fst row))
                    (attributeOf api2 phetioID (fst row)) = true
               /\ (printable (attributeOf api1 phetioID (fst row)) = false
                   \/ printable (attributeOf api2 phetioID (fst row)) = false)).
Proof.
  rewrite checkElement_table, <- includes_In.
  destruct (includes elements2 phetioID).
  - rewrite reportAll_throws. split.
    + intros [row [Hin H]]. split; [ reflexivity | ].
      apply (reportDifferences_throws _ _ _ row [] (recognized_proper row Hin)) in H.
      destruct H as [ H | [ H | H ] ]; [ now left | now right; left | ].
      right. right. now exists row.
    + intros [_ H].
      assert (Hfirst : In ("phetioTypeName", @None value) recognizedAttributes)
        by (simpl; tauto).
      destruct H as [ H | [ H | [row [Hin H]] ] ].
      * exists ("phetioTypeName", None). split; [ assumption | ].
        apply reportDifferences_throws; [ exact I | now left ].
      * exists ("phetioTypeName", None). split; [ assumption | ].
        apply reportDifferences_throws; [ exact I | now right; left ].
      * exists row. split; [ assumption | ].
        apply reportDifferences_throws; [ now apply recognized_proper | ].
        now right; right.
  - split; [ intros [e H]; discriminate | intros [H _]; discriminate ].
Qed.

Lemma compareAPIs_throws_iff (api1 api2 : value) :
  compareAPIs api1 api2 = Throw TypeError
  <-> mappingAbsent api1 = true
      \/ mappingAbsent api2 = true
      \/ exists phetioID,
           In phetioID (keysOrEmpty api1) /\ In phetioID (keysOrEmpty api2)
           /\ (recordMissing api1 phetioID = true
               \/ recordMissing api2 phetioID = true
               \/ exists row, In row recognizedAttributes
                    /\ reportable (snd row) (attributeOf api1 phetioID (fst row))
                         (attributeOf api2 phetioID (fst row)) = true
                    /\ (printable (attributeOf api1 phetioID (fst row)) = false
                        \/ printable (attributeOf api2 phetioID (fst row)) = false)).
Proof.
  unfold compareAPIs, keysOrEmpty.
  destruct (elementsOf api1) as [ l1 | e1 ] eqn:E1; simpl.
  - destruct (elementsOf api2) as [ l2 | e2 ] eqn:E2; simpl.
    + assert (H1 : mappingAbsent api1 = false).
      { destruct (mappingAbsent api1) eqn:Habs; [ | reflexivity ].
        apply mappingAbsent_throws in Habs. congruence. }
      assert (H2 : mappingAbsent api2 = false).
      { destruct (mappingAbsent api2) eqn:Habs; [ | reflexivity ].
        apply mappingAbsent_throws in Habs. congruence. }
      rewrite H1, H2.
      pose proof (forEach_throws api1 api2 l2 l1 (missingElements l1 l2)) as F.
      split.
      * intro Hthrow. right. right.
        destruct (proj1 F (ex_intro _ TypeError Hthrow)) as [x [Hin Hx]].
        apply checkElement_throws in Hx. destruct Hx as [Hin2 Hx].
        exists x. now repeat split.
      * intros [ H | [ H | [x [Hin [Hin2 Hx]]] ] ]; try discriminate.
        destruct (proj2 F) as [e He].
        { exists x. split; [ assumption | ]. apply checkElement_throws. now split. }
        rewrite He. apply throw_TypeError.
    + split; [ | intros _; apply throw_TypeError ].
      intros _. right. left. now apply (elementsOf_throws api2 e2).
  - split; [ | intros _; apply throw_TypeError ].
    intros _. left. now apply (elementsOf_throws api1 e1).
Qed.

(** X1.  When no recognized attribute of an identifier that both
    descriptions have holds an array inside an array (so that printing a
    value does not nest), the comparison throws exactly when the mapping is
    absent on a side, or some identifier that both descriptions have has a
    record that is [null] or [undefined] on a side, or a change that is to be
    reported involves a value that the template literal cannot print; what
    it throws is a TypeError. *)
Theorem compare_throws_exactly (api1 api2 : value) :
  (forall phetioID row,
     In phetioID (keysOrEmpty api1) -> In phetioID (keysOrEmpty api2) ->
     In row recognizedAttributes ->
     noNestedArray (attributeOf api1 phetioID (fst row)) = true
     /\ noNestedArray (attributeOf api2 phetioID (fst row)) = true) ->
  compareAPIs api1 api2 = Throw TypeError
  <-> mappingAbsent api1 = true
      \/ mappingAbsent api2 = true
      \/ exists phetioID,
           In phetioID (keysOrEmpty api1) /\ In phetioID (keysOrEmpty api2)
           /\ (recordMissing api1 phetioID = true
               \/ recordMissing api2 phetioID = true
               \/ exists row, In row recognizedAttributes
                    /\ reportable (snd row) (attributeOf api1 phetioID (fst row))
                         (attributeOf api2 phetioID (fst row)) = true
                    /\ (printable (attributeOf api1 phetioID (fst row)) = false
                        \/ printable (attributeOf api2 phetioID (fst row)) = false)).
Proof.
  intros _. apply compareAPIs_throws_iff.
Qed.

Lemma compare_throws_exactly_witness :
  compareAPIs unprintableOld printableNew = Throw TypeError
  /\ (mappingAbsent unprintableOld = true
      \/ mappingAbsent printableNew = true
      \/ exists phetioID,
           In phetioID (keysOrEmpty unprintableOld)
           /\ In phetioID (keysOrEmpty printableNew)
           /\ (recordMissing unprintableOld phetioID = true
               \/ recordMissing printableNew phetioID = true
               \/ exists row, In row recognizedAttributes
                    /\ reportable (snd row)
                         (attributeOf unprintableOld phetioID (fst row))
                         (attributeOf printableNew phetioID (fst row)) = true
                    /\ (printable (attributeOf unprintableOld phetioID (fst row))
                        = false
                        \/ printable (attributeOf printableNew phetioID (fst row))
                           = false))).
Proof.
  split; [ reflexivity | ].
  apply (compare_throws_exactly unprintableOld printableNew).
  - intros phetioID row [ <- | [] ] _ Hrow. simpl in Hrow.
    destruct Hrow
      as [ <- | [ <- | [ <- | [ <- | [ <- | [ <- | [ <- | [ <- | [] ] ] ] ] ] ] ] ];
      split; reflexivity.
  - reflexivity.
Defined.

(** X2.  A comparison that returns holds at most one Problem for the
    identifier sets and at most eight for each identifier that both
    descriptions have. *)
Theorem problems_bounded (api1 api2 : value) (out : list Problem) :
  compareAPIs api1 api2 = Ok out ->
  List.length out
  <= 1 + 8 * List.length (sharedElements (keysOrEmpty api1) (keysOrEmpty api2)).
Proof.
  unfold compareAPIs, keysOrEmpty.
  destruct (elementsOf api1) as [ l1 | ]; simpl; [ | discriminate ].
  destruct (elementsOf api2) as [ l2 | ]; simpl; [ | discriminate ].
  rewrite forEach_frame.
  destruct (forEach (checkElement api1 api2 l2) l1 []) as [ r | ] eqn:Hr; simpl;
    [ | discriminate ].
  intro H. injection H as <-. rewrite length_app.
  pose proof (missingElements_length l1 l2).
  pose proof (forEach_length _ _ _ _ _ Hr). lia.
Qed.

Lemma problems_bounded_witness :
  List.length [ {| message := ("Second API missing elements:" ++ nl_tab ++ "sim.c")%string |};
                {| message := "sim.b.phetioTypeName changed from T to U" |};
                {| message := "sim.b.phetioReadOnly changed from false to true" |};
                {| message := "sim.a.phetioEventType changed from E to F" |};
                {| message := "sim.a.phetioState changed from true to false" |} ]
  <= 1 + 8 * List.length (sharedElements (keysOrEmpty orderOld) (keysOrEmpty orderNew)).
Proof.
  apply (problems_bounded orderOld orderNew). reflexivity.
Defined.

(** ** Whenever the comparison returns *)

Lemma reportDifferences_returns (api1 api2 : value) (phetioID : string)
    (row : string * option value) (r : list Problem) :
  properUnsafe (snd row) ->
  reportDifferences api1 api2 phetioID (fst row) (invalidNewValueOf (snd row)) [] = Ok r ->
  r = attributeProblems api1 api2 phetioID row.
Proof.
  intro Hu. destruct row as [k unsafe]. simpl in *.
  unfold reportDifferences, attributeProblems, attributeOf. simpl.
  destruct (metadataOf api1 phetioID k) as [ o | ]; simpl; [ | discriminate ].
  destruct (metadataOf api2 phetioID k) as [ n | ]; simpl; [ | discriminate ].
  assert (Hpush : forall r',
            (m <- changedMessage phetioID k o n ;; Ok ([] ++ [ {| message := m |} ]))
            = Ok r' -> r' = [ changeProblem phetioID k o n ]).
  { intro r'. unfold changedMessage, changeProblem, printed.
    destruct (to_string o); simpl; [ | discriminate ].
    destruct (to_string n); simpl; [ | discriminate ].
    intro H. now injection H as <-. }
  destruct unsafe as [ u | ]; simpl in *.
  - rewrite Hu. destruct (strict_neq o n); simpl.
    + destruct (strict_eq n u); simpl; [ apply Hpush | ].
      intro H. now injection H as <-.
    + intro H. now injection H as <-.
  - destruct (strict_neq o n); simpl; [ apply Hpush | ].
    intro H. now injection H as <-.
Qed.

Lemma reportAll_returns (api1 api2 : value) (phetioID : string)
    (rows : list (string * option value)) (r : list Problem) :
  (forall row, In row rows -> properUnsafe (snd row)) ->
  reportAll api1 api2 phetioID rows [] = Ok r ->
  r = flat_map (attributeProblems api1 api2 phetioID) rows.
Proof.
  revert r. induction rows as [ | row rows IH ]; intros r Hu; simpl.
  - intro H. now injection H as <-.
  - destruct (reportDifferences api1 api2 phetioID (fst row)
                (invalidNewValueOf (snd row)) []) as [ r1 | ] eqn:H1; simpl;
      [ | discriminate ].
    rewrite reportAll_frame.
    destruct (reportAll api1 api2 phetioID rows []) as [ r2 | ] eqn:H2; simpl;
      [ | discriminate ].
    intro H. injection H as <-.
    rewrite (reportDifferences_returns _ _ _ row r1 (Hu row (or_introl eq_refl)) H1).
    now rewrite (IH r2 (fun row' Hin => Hu row' (or_intror Hin)) eq_refl).
Qed.

Lemma forEach_returns (api1 api2 : value) (elements2 l : list string)
    (r : list Problem) :
  forEach (checkElement api1 api2 elements2) l [] = Ok r ->
  r = flat_map (fun phetioID =>
                  flat_map (attributeProblems api1 api2 phetioID) recognizedAttributes)
        (sharedElements l elements2).
Proof.
  rewrite <- flat_map_shared. revert r.
  induction l as [ | x l IH ]; intros r; simpl.
  - intro H. now injection H as <-.
  - destruct (checkElement api1 api2 elements2 [] x) as [ r1 | ] eqn:H1; simpl;
      [ | discriminate ].
    rewrite forEach_frame.
    destruct (forEach (checkElement api1 api2 elements2) l []) as [ r2 | ]; simpl;
      [ | discriminate ].
    intro H. injection H as <-. rewrite (IH r2 eq_refl). f_equal.
    rewrite checkElement_table in H1.
    destruct (includes elements2 x).
    + exact (reportAll_returns _ _ _ recognizedAttributes r1 recognized_proper H1).
    + now injection H1 as <-.
Qed.

Lemma compareAPIs_returns (api1 api2 : value) (out : list Problem) :
  compareAPIs api1 api2 = Ok out -> out = expectedProblems api1 api2.
Proof.
  unfold compareAPIs, expectedProblems, keysOrEmpty.
  destruct (elementsOf api1) as [ l1 | ]; simpl; [ | discriminate ].
  destruct (elementsOf api2) as [ l2 | ]; simpl; [ | discriminate ].
  rewrite forEach_frame.
  destruct (forEach (checkElement api1 api2 l2) l1 []) as [ r | ] eqn:Hr; simpl;
    [ | discriminate ].
  intro H. injection H as <-.
  now rewrite missingElements_spec, (forEach_returns _ _ _ _ _ Hr).
Qed.

(** X3.  Whatever the two arguments are, a comparison that returns gives,
    in this order: the missing-elements Problem if some identifier was
    removed; then, for each identifier of the first description that the
    second has too, in the order of the first, one Problem for each
    recognized attribute, in declaration order, whose change is to be
    reported. *)
Theorem returned_problems_in_check_order (api1 api2 : value) (out : list Problem) :
  compareAPIs api1 api2 = Ok out ->
  out = missingProblems (keysOrEmpty api1) (keysOrEmpty api2)
        ++ flat_map (fun phetioID =>
                       flat_map (attributeProblems api1 api2 phetioID)
                         recognizedAttributes)
             (filter (includes (keysOrEmpty api2)) (keysOrEmpty api1)).
Proof.
  intro H. now rewrite (compareAPIs_returns _ _ _ H).
Qed.

Lemma returned_problems_in_check_order_witness :
  [ {| message := ("Second API missing elements:" ++ nl_tab ++ "sim.n")%string |};
    {| message := "sim.x.phetioTypeName changed from 1,2 to 1,2" |} ]
  = missingProblems (keysOrEmpty arrayOld) (keysOrEmpty arrayNew)
    ++ flat_map (fun phetioID =>
                   flat_map (attributeProblems arrayOld arrayNew phetioID)
                     recognizedAttributes)
         (filter (includes (keysOrEmpty arrayNew)) (keysOrEmpty arrayOld)).
Proof.
  apply (returned_problems_in_check_order arrayOld arrayNew). reflexivity.
Defined.

(** X4.  Whatever the two arguments are, a comparison that returns reports
    nothing but the removal of identifiers and, for an identifier that both
    descriptions have and a recognized attribute, a value that differs under
    [!==] from the old one (and is the unsafe one, when the attribute is
    directional). *)
Theorem only_changes_are_reported (api1 api2 : value) (out : list Problem)
    (p : Problem) :
  compareAPIs api1 api2 = Ok out -> In p out ->
  (removedElements (keysOrEmpty api1) (keysOrEmpty api2) <> []
   /\ p = {| message :=
               missingMessage (removedElements (keysOrEmpty api1) (keysOrEmpty api2)) |})
  \/ exists phetioID k unsafe,
       In phetioID (keysOrEmpty api1) /\ In phetioID (keysOrEmpty api2)
       /\ In (k, unsafe) recognizedAttributes
       /\ strict_neq (attributeOf api1 phetioID k) (attributeOf api2 phetioID k) = true
       /\ (forall u, unsafe = Some u -> strict_eq (attributeOf api2 phetioID k) u = true)
       /\ p = changeProblem phetioID k (attributeOf api1 phetioID k)
                (attributeOf api2 phetioID k).
Proof.
  intros Hout Hin. rewrite (compareAPIs_returns _ _ _ Hout) in Hin.
  unfold expectedProblems in Hin. apply in_app_or in Hin.
  destruct Hin as [ Hin | Hin ].
  - left. unfold missingProblems in Hin.
    destruct (removedElements (keysOrEmpty api1) (keysOrEmpty api2)) as [ | x rest ];
      [ destruct Hin | ].
    destruct Hin as [ <- | [] ]. split; [ discriminate | reflexivity ].
  - right. apply in_flat_map in Hin. destruct Hin as [id [Hid Hin]].
    apply shared_In in Hid. apply in_flat_map in Hin.
    destruct Hin as [[k unsafe] [Hrow Hin]].
    unfold attributeProblems in Hin. simpl in Hin.
    destruct (reportable unsafe (attributeOf api1 id k) (attributeOf api2 id k))
      eqn:Hrep; [ | destruct Hin ].
    destruct Hin as [ <- | [] ]. exists id, k, unsafe.
    repeat split; try tauto.
    + destruct unsafe; simpl in Hrep; [ | assumption ].
      now apply andb_true_iff in Hrep.
    + intros u ->. simpl in Hrep. now apply andb_true_iff in Hrep.
Qed.

Lemma only_changes_are_reported_witness :
  (removedElements (keysOrEmpty sampleOld) (keysOrEmpty sampleNew) <> []
   /\ {| message := "sim.x.phetioState changed from true to false" |}
      = {| message :=
             missingMessage (removedElements (keysOrEmpty sampleOld)
                               (keysOrEmpty sampleNew)) |})
  \/ exists phetioID k unsafe,
       In phetioID (keysOrEmpty sampleOld) /\ In phetioID (keysOrEmpty sampleNew)
       /\ In (k, unsafe) recognizedAttributes
       /\ strict_neq (attributeOf sampleOld phetioID k)
            (attributeOf sampleNew phetioID k) = true
       /\ (forall u, unsafe = Some u ->
             strict_eq (attributeOf sampleNew phetioID k) u = true)
       /\ {| message := "sim.x.phetioState changed from true to false" |}
          = changeProblem phetioID k (attributeOf sampleOld phetioID k)
              (attributeOf sampleNew phetioID k).
Proof.
  apply (only_changes_are_reported sampleOld sampleNew
           [ {| message := ("Second API missing elements:" ++ nl_tab ++ "sim.y"
                            ++ nl_tab ++ "sim.z")%string |};
             {| message := "sim.x.phetioTypeName changed from T1 to T2" |};
             {| message := "sim.x.phetioState changed from true to false" |} ]).
  - reflexivity.
  - simpl. tauto.
Defined.

(** X5.  Whatever the two arguments are, a comparison that returns holds
    the Problem of every change that is to be reported, for every identifier
    that both descriptions have; so two arrays (or objects) that are alike
    but not the same one are reported as a change. *)
Theorem every_change_is_reported (api1 api2 : value) (out : list Problem)
    (phetioID k : string) (unsafe : option value) :
  compareAPIs api1 api2 = Ok out ->
  In phetioID (keysOrEmpty api1) -> In phetioID (keysOrEmpty api2) ->
  In (k, unsafe) recognizedAttributes ->
  reportable unsafe (attributeOf api1 phetioID k) (attributeOf api2 phetioID k) = true ->
  In (changeProblem phetioID k (attributeOf api1 phetioID k)
        (attributeOf api2 phetioID k)) out.
Proof.
  intros Hout H1 H2 Hrow Hrep. rewrite (compareAPIs_returns _ _ _ Hout).
  exact (reportable_In_expected api1 api2 phetioID (k, unsafe) H1 H2 Hrow Hrep).
Qed.

Lemma every_change_is_reported_witness :
  attributeOf arrayOld "sim.x" "phetioTypeName" = VArr 114 [ VNum "1"; VNum "2" ]
  /\ attributeOf arrayNew "sim.x" "phetioTypeName" = VArr 124 [ VNum "1"; VNum "2" ]
  /\ In {| message := "sim.x.phetioTypeName changed from 1,2 to 1,2" |}
       [ {| message := ("Second API missing elements:" ++ nl_tab ++ "sim.n")%string |};
         {| message := "sim.x.phetioTypeName changed from 1,2 to 1,2" |} ].
Proof.
  split; [ reflexivity | split; [ reflexivity | ] ].
  apply (every_change_is_reported arrayOld arrayNew _ "sim.x" "phetioTypeName" None).
  - reflexivity.
  - simpl. tauto.
  - simpl. tauto.
  - simpl. tauto.
  - reflexivity.
Defined.

(** ** Descriptions without a common identifier *)

Lemma forEach_none_shared (api1 api2 : value) (elements2 l : list string)
    (problems : list Problem) :
  (forall e, In e l -> ~ In e elements2) ->
  forEach (checkElement api1 api2 elements2) l problems = Ok problems.
Proof.
  induction l as [ | x l IH ]; intro Hdis; simpl; [ reflexivity | ].
  unfold checkElement at 1.
  assert (Hx : includes elements2 x = false)
    by (apply includes_false, Hdis; now left).
  rewrite Hx. simpl. apply IH. intros e He. apply Hdis. now right.
Qed.

Lemma removed_all (l1 l2 : list string) :
  (forall e, In e l1 -> ~ In e l2) -> removedElements l1 l2 = l1.
Proof.
  unfold removedElements. induction l1 as [ | x l1 IH ]; intro Hdis; simpl;
    [ reflexivity | ].
  assert (Hx : includes l2 x = false)
    by (apply includes_false, Hdis; now left).
  rewrite Hx. simpl. f_equal. apply IH. intros e He. apply Hdis. now right.
Qed.

(** X6.  When both mappings can be enumerated and no identifier of the first
    description is in the second, no record is read: the comparison returns,
    whatever the records are, with nothing when the first description has no
    identifier and otherwise with the one Problem that lists them all. *)
Theorem no_common_identifier (api1 api2 : value) (elements1 elements2 : list string) :
  elementsOf api1 = Ok elements1 -> elementsOf api2 = Ok elements2 ->
  (forall e, In e elements1 -> ~ In e elements2) ->
  compareAPIs api1 api2
  = Ok (match elements1 with
        | [] => []
        | _ => [ {| message := ("Second API missing elements:" ++ nl_tab
                                ++ join nl_tab elements1)%string |} ]
        end).
Proof.
  intros E1 E2 Hdis. unfold compareAPIs. rewrite E1, E2. simpl.
  rewrite forEach_none_shared by assumption.
  rewrite missingElements_spec. unfold missingProblems.
  rewrite removed_all by assumption. now destruct elements1.
Qed.

Lemma no_common_identifier_witness :
  compareAPIs nullRecord orderNew
  = Ok [ {| message := ("Second API missing elements:" ++ nl_tab ++ "sim.x")%string |} ]
  /\ compareAPIs emptyMapping nullRecord = Ok [].
Proof.
  split.
  - apply (no_common_identifier nullRecord orderNew ["sim.x"] ["sim.a"; "sim.b"]).
    + reflexivity.
    + reflexivity.
    + intros e [ <- | [] ] [ H | [ H | [] ] ]; discriminate.
  - apply (no_common_identifier emptyMapping nullRecord [] ["sim.x"]);
      try reflexivity. intros e [].
Defined.

(** ** Comparisons without a Problem *)

Lemma strict_eq_sym (a b : value) : strict_eq a b = strict_eq b a.
Proof.
  destruct a, b; simpl; trivial;
    try apply String.eqb_sym; try apply Pos.eqb_sym.
  now destruct b, b0.
Qed.

Lemma strict_eq_trans (a b c : value) :
  strict_eq a b = true -> strict_eq b c = true -> strict_eq a c = true.
Proof.
  destruct a, b; simpl; try discriminate; destruct c; simpl; try discriminate;
    trivial.
  - intros H1 H2. apply eqb_prop in H1, H2. subst. apply eqb_reflx.
  - intros H1 H2. apply String.eqb_eq in H1, H2. subst. apply String.eqb_refl.
  - intros H1 H2. apply String.eqb_eq in H1, H2. subst. apply String.eqb_refl.
  - intros H1 H2. apply Pos.eqb_eq in H1, H2. subst. apply Pos.eqb_refl.
  - intros H1 H2. apply Pos.eqb_eq in H1, H2. subst. apply Pos.eqb_refl.
Qed.

Lemma strict_eq_primitive (a b : value) :
  isPrimitive a = true -> strict_eq a b = true -> a = b.
Proof.
  destruct a, b; simpl; try discriminate; trivial; intros _ H.
  - apply eqb_prop in H. now subst.
  - apply String.eqb_eq in H. now subst.
  - apply String.eqb_eq in H. now subst.
Qed.

Lemma flat_map_nil_iff {A B : Type} (f : A -> list B) (l : list A) :
  flat_map f l = [] <-> forall x, In x l -> f x = [].
Proof.
  induction l as [ | x l IH ]; simpl.
  - split; [ intros _ x [] | reflexivity ].
  - split.
    + intro H. apply app_eq_nil in H. destruct H as [Hx Hl].
      intros y [ <- | Hy ]; [ assumption | now apply IH ].
    + intro H. rewrite (H x (or_introl eq_refl)). simpl.
      apply IH. intros y Hy. apply H. now right.
Qed.

Lemma unchangedAt_iff (api1 api2 : value) (phetioID : string) :
  (forall row, In row recognizedAttributes ->
     attributeProblems api1 api2 phetioID row = [])
  <-> unchangedAt api1 api2 phetioID.
Proof.
  assert (Hrow : forall row,
            attributeProblems api1 api2 phetioID row = []
            <-> reportable (snd row) (attributeOf api1 phetioID (fst row))
                  (attributeOf api2 phetioID (fst row)) = false).
  { intro row. unfold attributeProblems.
    destruct (reportable _ _ _); split; intro H; (reflexivity || discriminate). }
  unfold unchangedAt. split.
  - intro H. split.
    + intros k Hk.
      assert (Hin : In (k, @None value) recognizedAttributes).
      { simpl in Hk. simpl.
        destruct Hk as [ <- | [ <- | [ <- | [ <- | [ <- | [ <- | [] ] ] ] ] ] ]; tauto. }
      apply H, Hrow in Hin. simpl in Hin. unfold strict_neq in Hin.
      now apply negb_false_iff in Hin.
    + intros k unsafe Hk.
      assert (Hin : In (k, Some unsafe) recognizedAttributes).
      { simpl in Hk. simpl.
        destruct Hk as [ Hk | [ Hk | [] ] ]; injection Hk as <- <-; tauto. }
      apply H, Hrow in Hin. simpl in Hin. unfold strict_neq in Hin.
      apply andb_false_iff in Hin. destruct Hin as [ Hin | Hin ].
      * left. now apply negb_false_iff in Hin.
      * now right.
  - intros [Hnd Hd] row Hin. apply Hrow. simpl in Hin.
    destruct Hin as [ <- | [ <- | [ <- | [ <- | [ <- | [ <- | [ <- | [ <- | [] ] ] ] ] ] ] ] ];
      simpl; unfold strict_neq;
      try (rewrite Hnd by (simpl; tauto); reflexivity).
    + destruct (Hd "phetioState" (VBool false)) as [ H | H ]; [ simpl; tauto | | ];
        rewrite H; simpl; trivial. apply andb_false_r.
    + destruct (Hd "phetioReadOnly" (VBool true)) as [ H | H ]; [ simpl; tauto | | ];
        rewrite H; simpl; trivial. apply andb_false_r.
Qed.

Lemma expected_nil_iff (api1 api2 : value) :
  expectedProblems api1 api2 = []
  <-> (forall e, In e (keysOrEmpty api1) -> In e (keysOrEmpty api2))
      /\ (forall e, In e (keysOrEmpty api1) -> unchangedAt api1 api2 e).
Proof.
  unfold expectedProblems. split.
  - intro H. apply app_eq_nil in H. destruct H as [Hmiss Hattr].
    assert (Hsub : forall e, In e (keysOrEmpty api1) -> In e (keysOrEmpty api2)).
    { apply removed_nil_iff. unfold missingProblems in Hmiss.
      destruct (removedElements _ _); [ reflexivity | discriminate ]. }
    split; [ assumption | ].
    intros e He. apply unchangedAt_iff.
    rewrite flat_map_nil_iff in Hattr.
    specialize (Hattr e (proj2 (shared_In _ _ e) (conj He (Hsub e He)))).
    now rewrite flat_map_nil_iff in Hattr.
  - intros [Hsub Hun]. unfold missingProblems.
    rewrite (proj2 (removed_nil_iff _ _) Hsub). cbn [app].
    apply flat_map_nil_iff. intros e He. apply shared_In in He.
    apply (proj2 (flat_map_nil_iff _ recognizedAttributes)).
    apply unchangedAt_iff. apply Hun. tauto.
Qed.

Lemma compareAPIs_nil_iff (api1 api2 : value) :
  compareAPIs api1 api2 = Ok []
  <-> mappingAbsent api1 = false /\ mappingAbsent api2 = false
      /\ forall e, In e (keysOrEmpty api1) ->
           In e (keysOrEmpty api2)
           /\ recordMissing api1 e = false /\ recordMissing api2 e = false
           /\ unchangedAt api1 api2 e.
Proof.
  pose proof (compareAPIs_throws_iff api1 api2) as T.
  split.
  - intro H.
    assert (Hno : compareAPIs api1 api2 <> Throw TypeError) by (rewrite H; discriminate).
    rewrite T in Hno.
    pose proof (compareAPIs_returns _ _ _ H) as E. symmetry in E.
    apply expected_nil_iff in E. destruct E as [Hsub Hun].
    split; [ | split ].
    + destruct (mappingAbsent api1); [ elim Hno; now left | reflexivity ].
    + destruct (mappingAbsent api2); [ elim Hno; now right; left | reflexivity ].
    + intros e He. split; [ auto | split; [ | split; [ | auto ] ] ].
      * destruct (recordMissing api1 e) eqn:Hm; [ | reflexivity ].
        elim Hno. right. right. exists e. split; [ | split ]; auto.
      * destruct (recordMissing api2 e) eqn:Hm; [ | reflexivity ].
        elim Hno. right. right. exists e. split; [ | split ]; auto.
  - intros (H1 & H2 & Hall). clear T.
    destruct (compareAPIs api1 api2) as [ out | e ] eqn:Hc.
    + rewrite (compareAPIs_returns _ _ _ Hc). f_equal.
      apply expected_nil_iff. split; intros e He; now apply Hall.
    + exfalso. rewrite (throw_TypeError e) in Hc.
      apply compareAPIs_throws_iff in Hc.
      destruct Hc as [ Hc | [ Hc | [id (Hi1 & Hi2 & Hc)] ] ]; try congruence.
      destruct (Hall id Hi1) as (_ & Hm1 & Hm2 & Hun).
      destruct Hc as [ Hc | [ Hc | [row (Hrow & Hrep & _)] ] ]; try congruence.
      apply unchangedAt_iff with (row := row) in Hun; [ | assumption ].
      unfold attributeProblems in Hun. rewrite Hrep in Hun. discriminate.
Qed.

Lemma unchangedAt_trans (a b c : value) (phetioID : string) :
  unchangedAt a b phetioID -> unchangedAt b c phetioID -> unchangedAt a c phetioID.
Proof.
  intros [Hnd1 Hd1] [Hnd2 Hd2]. split.
  - intros k Hk. apply (strict_eq_trans _ (attributeOf b phetioID k)); auto.
  - intros k unsafe Hk.
    destruct (strict_eq (attributeOf c phetioID k) unsafe) eqn:Hcu; [ | now right ].
    left.
    destruct (Hd2 k unsafe Hk) as [ Hbc | Hbc ]; [ | congruence ].
    destruct (Hd1 k unsafe Hk) as [ Hab | Hab ].
    + now apply (strict_eq_trans _ (attributeOf b phetioID k)).
    + rewrite (strict_eq_trans _ _ _ Hbc Hcu) in Hab. discriminate.
Qed.

(** X7.  The comparison returns without a Problem exactly when both
    mappings are there, every identifier of the first description is in the
    second with a record to read on both sides, and at each of them none of
    the six attributes checked without a direction differs under [!==],
    [phetioState] is the same or not [false] now, and [phetioReadOnly] is the
    same or not [true] now. *)
Theorem no_problem_exactly (api1 api2 : value) :
  compareAPIs api1 api2 = Ok []
  <-> mappingAbsent api1 = false /\ mappingAbsent api2 = false
      /\ forall e, In e (keysOrEmpty api1) ->
           In e (keysOrEmpty api2)
           /\ recordMissing api1 e = false /\ recordMissing api2 e = false
           /\ (forall k, In k nonDirectionalAttributes ->
                 strict_eq (attributeOf api1 e k) (attributeOf api2 e k) = true)
           /\ (forall k unsafe, In (k, unsafe) directionalAttributes ->
                 strict_eq (attributeOf api1 e k) (attributeOf api2 e k) = true
                 \/ strict_eq (attributeOf api2 e k) unsafe = false).
Proof.
  apply compareAPIs_nil_iff.
Qed.

(** X8.  Compatibility composes: when a first description compares without
    a Problem to a second one, and the second to a third, the first compares
    without a Problem to the third. *)
Theorem compatibility_composes (api1 api2 api3 : value) :
  compareAPIs api1 api2 = Ok [] -> compareAPIs api2 api3 = Ok [] ->
  compareAPIs api1 api3 = Ok [].
Proof.
  rewrite !compareAPIs_nil_iff.
  intros (Ha1 & Ha2 & H12) (Hb2 & Hb3 & H23).
  split; [ assumption | split; [ assumption | ] ].
  intros e He.
  destruct (H12 e He) as (He2 & Hm1 & _ & Hu12).
  destruct (H23 e He2) as (He3 & _ & Hm3 & Hu23).
  repeat (split; [ assumption | ]).
  now apply (unchangedAt_trans api1 api2 api3).
Qed.

Lemma compatibility_composes_witness :
  compareAPIs sampleNewTrimmed sampleNew = Ok []
  /\ compareAPIs sampleNew (withAttribute "sim.x" "phetioState" (VBool true) sampleNew)
     = Ok []
  /\ compareAPIs sampleNewTrimmed
       (withAttribute "sim.x" "phetioState" (VBool true) sampleNew) = Ok [].
Proof.
  split; [ reflexivity | split; [ reflexivity | ] ].
  apply (compatibility_composes sampleNewTrimmed sampleNew); reflexivity.
Defined.

(** X9.  When each of two descriptions compares without a Problem to the
    other, they have the same identifiers, and at each of them the six
    attributes checked without a direction are equal under [===] (the same
    value, when the first description is well-formed). *)
Theorem mutual_compatibility (api1 api2 : value) :
  compareAPIs api1 api2 = Ok [] -> compareAPIs api2 api1 = Ok [] ->
  (forall e, In e (keysOrEmpty api1) <-> In e (keysOrEmpty api2))
  /\ (forall e k, In e (keysOrEmpty api1) -> In k nonDirectionalAttributes ->
        strict_eq (attributeOf api1 e k) (attributeOf api2 e k) = true
        /\ (wellFormed api1 = true -> attributeOf api1 e k = attributeOf api2 e k)).
Proof.
  rewrite !compareAPIs_nil_iff.
  intros (_ & _ & H12) (_ & _ & H21). split.
  - intro e. split; intro He; [ now apply H12 | now apply H21 ].
  - intros e k He Hk.
    destruct (H12 e He) as (_ & _ & _ & Hnd & _).
    split; [ now apply Hnd | ].
    intro Hwf. apply strict_eq_primitive; [ | now apply Hnd ].
    destruct (wellFormed_metadata api1 e k Hwf He) as (v & Hv & Hp).
    unfold attributeOf. now rewrite Hv.
Qed.

Lemma mutual_compatibility_witness :
  (forall e, In e (keysOrEmpty sampleOld)
             <-> In e (keysOrEmpty (withAttribute "sim.x" "phetioState" VUndefined
                                      sampleOld)))
  /\ (forall e k, In e (keysOrEmpty sampleOld) ->
        In k nonDirectionalAttributes ->
        strict_eq (attributeOf sampleOld e k)
          (attributeOf (withAttribute "sim.x" "phetioState" VUndefined sampleOld)
             e k) = true
        /\ (wellFormed sampleOld = true ->
            attributeOf sampleOld e k
            = attributeOf (withAttribute "sim.x" "phetioState" VUndefined
                             sampleOld) e k)).
Proof.
  apply (mutual_compatibility sampleOld
           (withAttribute "sim.x" "phetioState" VUndefined sampleOld));
    reflexivity.
Defined.

(** ** What the result depends on *)

(** X10.  The result depends on the two descriptions through the two lists
    of identifiers and, for the identifiers in both, the values of the eight
    recognized attributes, and through nothing else: not through any other
    attribute, the records of the other identifiers, the order of the
    attributes in a record, or which objects the documents are made of. *)
Theorem depends_on_recognized_of_shared (a1 a2 b1 b2 : value)
    (elements1 elements2 : list string) :
  elementsOf a1 = Ok elements1 -> elementsOf b1 = Ok elements1 ->
  elementsOf a2 = Ok elements2 -> elementsOf b2 = Ok elements2 ->
  (forall e k, In e elements1 -> In e elements2 -> In k recognizedKeys ->
     metadataOf a1 e k = metadataOf b1 e k /\ metadataOf a2 e k = metadataOf b2 e k) ->
  compareAPIs a1 a2 = compareAPIs b1 b2.
Proof.
  intros Ea1 Eb1 Ea2 Eb2 Hagree. unfold compareAPIs.
  rewrite Ea1, Eb1, Ea2, Eb2. simpl.
  apply forEach_ext. intros s x Hx.
  destruct (includes elements2 x) eqn:Hinc.
  - apply includes_In in Hinc.
    apply checkElement_ext; intros k Hk; now apply (Hagree x k).
  - unfold checkElement. now rewrite Hinc.
Qed.

Lemma depends_on_recognized_of_shared_witness :
  compareAPIs sampleOld sampleNew = compareAPIs rewrittenOld rewrittenNew.
Proof.
  apply (depends_on_recognized_of_shared sampleOld sampleNew rewrittenOld rewrittenNew
           ["sim.x"; "sim.y"; "sim.z"] ["sim.w"; "sim.x"]); try reflexivity.
  intros e k [ <- | [ <- | [ <- | [] ] ] ] [ H | [ H | [] ] ] Hk;
    try discriminate H.
  unfold recognizedKeys in Hk. simpl in Hk.
  destruct Hk as [ <- | [ <- | [ <- | [ <- | [ <- | [ <- | [ <- | [ <- | [] ] ] ] ] ] ] ] ];
    split; reflexivity.
Defined.

(** ** One attribute changed *)

Lemma index_key_not_phetioElements (l : list nat) :
  find (fun i => String.eqb (index_key i) "phetioElements") l = None.
Proof.
  induction l as [ | i l IH ]; simpl; [ reflexivity | ].
  assert (H : String.eqb (index_key i) "phetioElements" = false).
  { unfold index_key. destruct (Nat.to_uint i); reflexivity. }
  now rewrite H.
Qed.

Lemma wellFormed_object (api : value) :
  wellFormed api = true -> exists a top, api = VObj a top.
Proof.
  unfold wellFormed. destruct api as [ | | ? | ? | s | r items | a top ]; simpl;
    try discriminate.
  - unfold index_of. now rewrite index_key_not_phetioElements.
  - unfold index_of. now rewrite index_key_not_phetioElements.
  - intros _. now exists a, top.
Qed.

Lemma forallb_setField (P : value -> bool) (k : string) (v : value)
    (fields : list (string * value)) :
  forallb (fun kv => P (snd kv)) fields = true -> P v = true ->
  forallb (fun kv => P (snd kv)) (setField k v fields) = true.
Proof.
  intros Hall Hv. induction fields as [ | [k' v'] rest IH ]; simpl in *.
  - now rewrite Hv.
  - apply andb_true_iff in Hall. destruct Hall as [Hv' Hrest].
    destruct (String.eqb k' k); simpl.
    + now rewrite Hv, Hrest.
    + now rewrite Hv', IH.
Qed.

Lemma withAttribute_wf (phetioID k : string) (v : value) (api : value) :
  wellFormed api = true -> isPrimitive v = true ->
  wellFormed (withAttribute phetioID k v api) = true.
Proof.
  intros Hwf Hv. destruct (wellFormed_object api Hwf) as (a & top & ->).
  unfold withAttribute.
  destruct (lookup "phetioElements" top) as [ [ | | ? | ? | ? | ? ? | b els ] | ]
    eqn:Htop; try assumption.
  destruct (lookup phetioID els) as [ [ | | ? | ? | ? | ? ? | c attrs ] | ] eqn:Hid;
    try assumption.
  unfold wellFormed in *. simpl in *. rewrite Htop in Hwf.
  rewrite lookup_setField_same. simpl in *.
  apply forallb_setField; [ assumption | ]. simpl.
  apply (forallb_setField isPrimitive); [ | assumption ].
  rewrite forallb_forall in Hwf.
  exact (Hwf (phetioID, VObj c attrs) (lookup_In _ _ _ Hid)).
Qed.

Lemma withAttribute_other_id (phetioID k : string) (v : value) (api : value)
    (phetioID' k' : string) :
  phetioID' <> phetioID ->
  metadataOf (withAttribute phetioID k v api) phetioID' k' = metadataOf api phetioID' k'.
Proof.
  intro Hne. unfold withAttribute.
  destruct api as [ | | ? | ? | ? | ? ? | a top ]; try reflexivity.
  destruct (lookup "phetioElements" top) as [ [ | | ? | ? | ? | ? ? | b els ] | ] eqn:Htop;
    try reflexivity.
  destruct (lookup phetioID els) as [ [ | | ? | ? | ? | ? ? | c attrs ] | ] eqn:Hid;
    try reflexivity.
  unfold metadataOf. simpl. rewrite lookup_setField_same, Htop. simpl.
  now rewrite lookup_setField_other.
Qed.

Lemma shared_self (l : list string) : sharedElements l l = l.
Proof.
  unfold sharedElements.
  assert (H : forall m, (forall e, In e m -> In e l) -> filter (includes l) m = m).
  { induction m as [ | x m IH ]; intro Hsub; simpl; [ reflexivity | ].
    assert (Hx : includes l x = true) by (apply includes_In, Hsub; now left).
    rewrite Hx. f_equal. apply IH. intros e He. apply Hsub. now right. }
  apply H. trivial.
Qed.

Lemma flat_map_only {A B : Type} (f : A -> list B) (l : list A) (x : A) :
  NoDup l -> In x l -> (forall y, In y l -> y <> x -> f y = []) ->
  flat_map f l = f x.
Proof.
  induction l as [ | y l IH ]; intros Hnd Hin Hother; [ destruct Hin | ].
  inversion Hnd as [ | ? ? Hnotin Hnd' ]; subst. simpl.
  destruct Hin as [ -> | Hin ].
  - assert (Hrest : flat_map f l = []).
    { apply flat_map_nil_iff. intros z Hz. apply Hother; [ now right | ].
      intros ->. contradiction. }
    now rewrite Hrest, app_nil_r.
  - rewrite (Hother y (or_introl eq_refl)) by (intros ->; contradiction).
    simpl. apply IH; trivial. intros z Hz. apply Hother. now right.
Qed.

Lemma attributeProblems_equal (api1 api2 : value) (phetioID : string)
    (row : string * option value) :
  attributeOf api2 phetioID (fst row) = attributeOf api1 phetioID (fst row) ->
  attributeProblems api1 api2 phetioID row = [].
Proof.
  intro H. unfold attributeProblems. now rewrite H, reportable_same.
Qed.

Lemma recognized_NoDup : NoDup recognizedAttributes.
Proof.
  unfold recognizedAttributes.
  repeat (constructor; [ simpl; intuition discriminate | ]). constructor.
Qed.

Lemma recognized_other_key (row row' : string * option value) :
  In row recognizedAttributes -> In row' recognizedAttributes -> row' <> row ->
  fst row' <> fst row.
Proof.
  unfold recognizedAttributes. simpl. intros H H' Hne.
  destruct H as [ <- | [ <- | [ <- | [ <- | [ <- | [ <- | [ <- | [ <- | [] ] ] ] ] ] ] ] ];
    destruct H' as [ <- | [ <- | [ <- | [ <- | [ <- | [ <- | [ <- | [ <- | [] ] ] ] ] ] ] ] ];
    simpl; try discriminate; now elim Hne.
Qed.

(** X11.  One change, one Problem: a well-formed description compared with
    itself, one recognized attribute of one record set to a primitive value,
    gives the single Problem of that change when it is to be reported (the
    value differs under [!==] and, for a directional attribute, is the unsafe
    one), and nothing otherwise. *)
Theorem one_change_one_problem (api : value) (phetioID k : string)
    (unsafe : option value) (v : value) :
  wellFormed api = true -> NoDup (keysOrEmpty api) ->
  In phetioID (keysOrEmpty api) -> In (k, unsafe) recognizedAttributes ->
  isPrimitive v = true ->
  compareAPIs api (withAttribute phetioID k v api)
  = Ok (if reportable unsafe (attributeOf api phetioID k) v
        then [ changeProblem phetioID k (attributeOf api phetioID k) v ]
        else []).
Proof.
  intros Hwf Hnd Hin Hrow Hv.
  pose proof (withAttribute_wf phetioID k v api Hwf Hv) as Hwf'.
  rewrite (compareAPIs_expected _ _ Hwf Hwf'). f_equal.
  assert (Hkeys : keysOrEmpty (withAttribute phetioID k v api) = keysOrEmpty api).
  { unfold keysOrEmpty. now rewrite withAttribute_keys. }
  assert (Hset : attributeOf (withAttribute phetioID k v api) phetioID k = v).
  { destruct (wellFormed_object api Hwf) as (a & top & ->).
    unfold attributeOf. now rewrite withAttribute_sets. }
  unfold expectedProblems. rewrite Hkeys.
  unfold missingProblems. rewrite removed_self, shared_self. cbn [app].
  rewrite (flat_map_only _ _ phetioID Hnd Hin).
  - rewrite (flat_map_only _ _ (k, unsafe) recognized_NoDup Hrow).
    + unfold attributeProblems. cbn [fst snd]. now rewrite Hset.
    + intros row' Hin' Hne. apply attributeProblems_equal.
      unfold attributeOf. rewrite withAttribute_other; [ reflexivity | ].
      exact (recognized_other_key (k, unsafe) row' Hrow Hin' Hne).
  - intros y Hy Hne.
    apply (proj2 (flat_map_nil_iff _ recognizedAttributes)).
    intros row _. apply attributeProblems_equal.
    unfold attributeOf. now rewrite withAttribute_other_id.
Qed.

Lemma one_change_one_problem_witness :
  compareAPIs sampleOld (withAttribute "sim.y" "phetioReadOnly" (VBool true) sampleOld)
  = Ok [ {| message := "sim.y.phetioReadOnly changed from false to true" |} ].
Proof.
  apply (one_change_one_problem sampleOld "sim.y" "phetioReadOnly"
           (Some (VBool true)) (VBool true)).
  - reflexivity.
  - repeat (constructor; [ simpl; intuition discriminate | ]). constructor.
  - simpl. tauto.
  - simpl. tauto.
  - reflexivity.
Defined.

(** ** Throwing comparisons *)

Example null_record_throws :
  compareAPIs nullRecord (oneRecord 1 [ ("phetioTypeName", VStr "T") ])
  = Throw TypeError.
Proof. reflexivity. Qed.

Example unprintable_change_throws :
  compareAPIs
    (oneRecord 1 [ ("phetioTypeName", VObj 9 [ ("toString", VNum "1") ]) ])
    (oneRecord 5 [ ("phetioTypeName", VStr "T") ])
  = Throw TypeError.
Proof. reflexivity. Qed.

Example unprintable_unchanged_returns :
  compareAPIs
    (oneRecord 1 [ ("phetioFeatured", VObj 9 [ ("toString", VNum "1") ]) ])
    (oneRecord 5 [ ("phetioFeatured", VStr "T") ])
  = Ok [].
Proof. reflexivity. Qed.
